(** * GrappleHook device panel: dispatch, identity changes, firmware upgrade

    A shallow embedding of [grapple-hook/src/devices/Device.tsx] and the
    properties its specification states about it.

    Layout of the development:
    - [JsString]  : JavaScript strings as sequences of UTF-16 code units;
    - [JsNumber]  : JavaScript numbers (binary64) and [Number(string)];
    - [Rpc]       : calls, settled promises and the log of observable effects;
    - [Dom]       : the element trees the components return;
    - [Dispatch]  : [FACTORIES], [getFactory], [renderDeviceType],
                    [DeviceComponent];
    - [Gateway]   : the handlers of [GrappleDeviceHeaderComponent];
    - [Upgrade]   : [FirmwareUpdateComponent] as an event-driven machine.
    The theorems follow the definitions. *)

From Stdlib Require Import ZArith NArith List String Ascii Bool Lia.
From Stdlib Require Import SpecFloat DecimalString HexadecimalString.
From Stdlib Require DecimalPos DecimalN.
From stdpp Require Import base gmap list.

Local Open Scope Z_scope.

(* ===================================================================== *)
(** ** JavaScript strings *)
(* ===================================================================== *)

Module JsString.

(** A JavaScript string is a finite sequence of 16-bit code units, and
    [s.length] counts code units. *)
Definition code_unit := N.
Definition jsstring := list code_unit.

(** The code units of an ASCII literal of the source. *)
Definition js (s : string) : jsstring :=
  map N_of_ascii (list_ascii_of_string s).

(** The string made of the double-quote character alone. *)
Definition dquote : jsstring := [34%N].

(** [s.length] *)
Definition length (s : jsstring) : Z := Z.of_nat (List.length s).

(** [String(n)] and the template conversion of a non-negative integer
    number: its decimal digits. *)
Definition of_N (n : N) : jsstring :=
  js (DecimalString.NilZero.string_of_uint (N.to_uint n)).

(** [n.toString(16)] of a non-negative integer: lower-case hexadecimal. *)
Definition toString16 (n : N) : jsstring :=
  js (HexadecimalString.NilZero.string_of_uint (N.to_hex_uint n)).

(** The text a template literal prints for a possibly undefined string. *)
Definition template_opt (o : option jsstring) : jsstring :=
  match o with
  | Some s => s
  | None => js "undefined"
  end.

End JsString.

(* ===================================================================== *)
(** ** JavaScript numbers and [Number(string)] *)
(* ===================================================================== *)

Module JsNumber.
Import JsString.

(** A Number is an IEEE 754 binary64 value. *)
Definition jsnumber := spec_float.
Definition prec : Z := 53.
Definition emax : Z := 1024.

Definition NaN : jsnumber := S754_nan.
Definition pos_zero : jsnumber := S754_zero false.

(** The Number of an integer literal of the source. *)
Definition of_Z (z : Z) : jsnumber := binary_normalize prec emax z 0 false.

(** [ToBoolean] on a Number: [+0], [-0] and [NaN] are falsy. *)
Definition ToBoolean (x : jsnumber) : bool :=
  match x with
  | S754_zero _ => false
  | S754_nan => false
  | S754_infinity _ => true
  | S754_finite _ _ _ => true
  end.

(** [x || d] on Numbers. *)
Definition or_else (x d : jsnumber) : jsnumber :=
  if ToBoolean x then x else d.

(** *** StringToNumber *)

(** [StrWhiteSpaceChar]: WhiteSpace (TAB, VT, FF, ZWNBSP and the Unicode
    space separators) and LineTerminator (LF, CR, LS, PS). *)
Definition is_StrWhiteSpaceChar (c : code_unit) : bool :=
  (existsb (N.eqb c)
     [0x9; 0xA; 0xB; 0xC; 0xD; 0x20; 0xA0; 0x1680; 0x2028; 0x2029;
      0x202F; 0x205F; 0x3000; 0xFEFF]%N
   || (0x2000 <=? c)%N && (c <=? 0x200A)%N)%bool.

Fixpoint trim_start (s : jsstring) : jsstring :=
  match s with
  | c :: r => if is_StrWhiteSpaceChar c then trim_start r else s
  | [] => []
  end.

Definition trim (s : jsstring) : jsstring :=
  rev (trim_start (rev (trim_start s))).

Definition digit_of (base : N) (c : code_unit) : option N :=
  let v :=
    if (48 <=? c)%N && (c <=? 57)%N then Some (c - 48)%N
    else if (97 <=? c)%N && (c <=? 102)%N then Some (c - 87)%N
    else if (65 <=? c)%N && (c <=? 70)%N then Some (c - 55)%N
    else None in
  match v with
  | Some d => if (d <? base)%N then Some d else None
  | None => None
  end.

(** The longest prefix of digits of the base, and what follows it. *)
Fixpoint span_digits (base : N) (s : jsstring) : list N * jsstring :=
  match s with
  | c :: r =>
      match digit_of base c with
      | Some d => let '(ds, rest) := span_digits base r in (d :: ds, rest)
      | None => ([], s)
      end
  | [] => ([], [])
  end.

Definition value_of_digits (base : N) (ds : list N) : Z :=
  fold_left (fun acc d => acc * Z.of_N base + Z.of_N d) ds 0.

(** The Number nearest to [m * 10^e10] (ties to even), with sign [neg]. *)
Definition round_decimal (neg : bool) (m : Z) (e10 : Z) : jsnumber :=
  if m <=? 0 then S754_zero neg
  else if 0 <=? e10 then
    binary_normalize prec emax (cond_Zopp neg (m * 10 ^ e10)) 0 neg
  else
    let d := 10 ^ (- e10) in
    let s := Z.max 0 (Zdigits2 d - Zdigits2 m + 56) in
    let '(q, r) := Z.div_eucl (m * 2 ^ s) d in
    let loc := if r =? 0 then loc_Exact
               else loc_Inexact (Z.compare (2 * r) d) in
    binary_round_aux prec emax neg q (- s) loc.

(** [ExponentPart_opt] followed by the end of the literal. *)
Definition parse_exponent (s : jsstring) : option Z :=
  match s with
  | [] => Some 0
  | c :: r =>
      if (c =? 101)%N || (c =? 69)%N then
        let '(neg, r') :=
          match r with
          | 43%N :: t => (false, t)
          | 45%N :: t => (true, t)
          | _ => (false, r)
          end in
        match span_digits 10 r' with
        | ((_ :: _) as ds, []) => Some (cond_Zopp neg (value_of_digits 10 ds))
        | _ => None
        end
      else None
  end.

(** [StrUnsignedDecimalLiteral] *)
Definition parse_unsigned_decimal (neg : bool) (s : jsstring) : jsnumber :=
  if bool_decide (s = js "Infinity") then S754_infinity neg
  else
    let '(ip, r1) := span_digits 10 s in
    let '(fp, r2, ok) :=
      match r1 with
      | 46%N :: t =>
          let '(fp, r2) := span_digits 10 t in
          (fp, r2, negb (Nat.eqb (List.length ip + List.length fp) 0))
      | _ => ([], r1, negb (Nat.eqb (List.length ip) 0))
      end in
    if ok then
      match parse_exponent r2 with
      | Some e =>
          round_decimal neg (value_of_digits 10 (ip ++ fp))
                        (e - Z.of_nat (List.length fp))
      | None => NaN
      end
    else NaN.

(** [NonDecimalIntegerLiteral]: [0b], [0o], [0x] and their upper-case
    forms, followed by at least one digit of the base. *)
Definition parse_non_decimal (s : jsstring) : option jsnumber :=
  match s with
  | 48%N :: p :: r =>
      let base :=
        if (p =? 120)%N || (p =? 88)%N then Some 16%N
        else if (p =? 111)%N || (p =? 79)%N then Some 8%N
        else if (p =? 98)%N || (p =? 66)%N then Some 2%N
        else None in
      match base with
      | Some b =>
          match span_digits b r with
          | ((_ :: _) as ds, []) =>
              Some (binary_normalize prec emax (value_of_digits b ds) 0 false)
          | _ => Some NaN
          end
      | None => None
      end
  | _ => None
  end.

(** [Number(s)] for a string [s]. *)
Definition Number (s : jsstring) : jsnumber :=
  match trim s with
  | [] => pos_zero
  | t =>
      match parse_non_decimal t with
      | Some v => v
      | None =>
          match t with
          | 43%N :: r => parse_unsigned_decimal false r
          | 45%N :: r => parse_unsigned_decimal true r
          | _ => parse_unsigned_decimal false t
          end
      end
  end.

End JsNumber.


(* ===================================================================== *)
(** ** The device descriptor *)
(* ===================================================================== *)

Module Schema.
Import JsString.

(** Modelled from the spec: the type tag, whose declaration ([../schema])
    is not part of the source at hand.  It is one of a fixed set of
    well-known kinds, a vendor device with a name, or unknown; as
    [renderDeviceType] inspects it, these are the strings [RoboRIO] and
    [Unknown] and an object with a [Grapple] key that holds the model
    name shown as the label. *)
Inductive DeviceType :=
| RoboRIO
| Unknown
| Grapple (model : jsstring).

(** Modelled from the spec: the device descriptor [DeviceInfo] of
    [../schema], with the fields the components read: the type tag, an
    optional numeric bus id, an optional display name, an optional serial
    number, an optional firmware version string and the bootloader flag.
    A field that may be [undefined] is an option; ids and serials are
    non-negative integers. *)
Record DeviceInfo := {
  device_type : DeviceType;
  device_id : option N;
  name : option jsstring;
  serial : option N;
  firmware_version : option jsstring;
  is_dfu : bool
}.

(** The same descriptor under another name. *)
Definition with_name (info : DeviceInfo) (n : option jsstring)
  : DeviceInfo :=
  {| device_type := device_type info;
     device_id := device_id info;
     name := n;
     serial := serial info;
     firmware_version := firmware_version info;
     is_dfu := is_dfu info |}.

End Schema.

(* ===================================================================== *)
(** ** Calls, settled promises and observable effects *)
(* ===================================================================== *)

Module Rpc.
Import JsString JsNumber.

(** The argument object of a call. *)
Inductive payload :=
| NoArgs
| IdArg (id : jsnumber)
| NameArg (name : jsstring)
| DataArg (data : list Byte.byte).

Record call := Call { method : string; args : payload }.

(** A rejection reason, and what [addError] is given. *)
Definition error := jsstring.

(** How a promise ends. *)
Inductive settled (A : Type) :=
| Fulfilled (a : A)
| Rejected (e : error).
Arguments Fulfilled {A} a.
Arguments Rejected {A} e.

(** What a handler does that can be seen from outside it. *)
Inductive effect :=
| Invoked (c : call)       (* the device was sent [c] *)
| Toast (e : error)        (* [addError e]: shown to the operator *)
| Unhandled (e : error).   (* a rejection nobody handles *)

(** Handlers run in a writer monad over the effects, oldest first. *)
Definition M (A : Type) : Type := A * list effect.

Definition ret {A} (a : A) : M A := (a, []).

Definition bind {A B} (c : M A) (k : A -> M B) : M B :=
  let '(a, l1) := c in
  let '(b, l2) := k a in
  (b, l1 ++ l2).

Definition tell (e : effect) : M unit := (tt, [e]).

Definition effects {A} (c : M A) : list effect := snd c.

(** Modelled from the spec: [rpc] (module [../rpc], not part of the
    source at hand) is the generic invocation primitive: it sends the
    named operation with its arguments through [invoke] once and hands
    the result or the failure to its caller, with no retry and no
    report of its own. *)
Definition rpc {R} (invoke : call -> settled R) (method : string)
    (args : payload) : M (settled R) :=
  let c := Call method args in
  bind (tell (Invoked c)) (fun _ => ret (invoke c)).

(** Modelled from the spec: [addError e] of [useToasts] ([../toasts]),
    the collaborator that reports an error to the operator. *)
Definition addError (e : error) : M unit := tell (Toast e).

(** [p.catch(h)] *)
Definition catch {R} (p : settled R) (h : error -> M unit) : M unit :=
  match p with
  | Fulfilled _ => ret tt
  | Rejected e => h e
  end.

(** A promise that is returned to a caller that ignores it. *)
Definition dropped {R} (p : settled R) : M unit :=
  match p with
  | Fulfilled _ => ret tt
  | Rejected e => tell (Unhandled e)
  end.

(** The calls among the effects, and the reports to the operator. *)
Definition invocations (l : list effect) : list call :=
  omap (fun e => match e with Invoked c => Some c | _ => None end) l.

Definition toasts (l : list effect) : list error :=
  omap (fun e => match e with Toast m => Some m | _ => None end) l.

End Rpc.

Arguments JsString.js s%_string.
Arguments Rpc.Call method%_string args.
Arguments Rpc.rpc {R} invoke method%_string args.

Declare Scope handler_scope.
Delimit Scope handler_scope with handler.
Notation "x <- c ;; k" := (Rpc.bind c (fun x => k))
  (at level 100, c at next level, right associativity) : handler_scope.

(* ===================================================================== *)
(** ** Element trees *)
(* ===================================================================== *)

Module Dom.
Import JsString JsNumber Schema.

Inductive attr :=
| AStr (key : string) (v : jsstring)
| ANum (key : string) (v : jsnumber)
| AFlag (key : string)
| AInfo (info : DeviceInfo)    (* [info={info}] *)
| AInvoke.                     (* [invoke={invoke}], passed on as it is *)

(** What a component returns.  JSX text that is only spacing is left
    out of the trees. *)
#[warnings="-register-all"]
Inductive node :=
| Text (s : jsstring)
| Skipped                      (* [false] or [null]: shows nothing *)
| ObjectChild (info : DeviceInfo)  (* a plain object in child position *)
| El (tag : string) (attrs : list attr) (children : list node).

(** Does an element with this tag occur in the trees? *)
Fixpoint occurs (tag : string) (n : node) : bool :=
  match n with
  | El t _ children =>
      (if string_dec t tag then true else false)
      || (fix any (l : list node) : bool :=
            match l with
            | [] => false
            | c :: r => occurs tag c || any r
            end) children
  | _ => false
  end.

Definition shows (tag : string) (l : list node) : bool :=
  existsb (occurs tag) l.

End Dom.

Arguments Dom.AStr key%_string v.
Arguments Dom.ANum key%_string v.
Arguments Dom.AFlag key%_string.
Arguments Dom.El tag%_string attrs children.
Arguments Dom.occurs tag%_string n.
Arguments Dom.shows tag%_string l.

(* ===================================================================== *)
(** ** [JSON.stringify] of a type tag *)
(* ===================================================================== *)

Module Json.
Import JsString Schema.

Definition hex_digit (d : N) : code_unit :=
  if (d <? 10)%N then (48 + d)%N else (87 + d)%N.

(** The escape [\uXXXX] of a code unit, in lower-case hexadecimal. *)
Definition UnicodeEscape (c : code_unit) : jsstring :=
  [92; 117]%N
    ++ map hex_digit
         [(c / 4096) mod 16; (c / 256) mod 16; (c / 16) mod 16; c mod 16]%N.

Definition is_leading_surrogate (c : code_unit) : bool :=
  ((0xD800 <=? c) && (c <=? 0xDBFF))%N.
Definition is_trailing_surrogate (c : code_unit) : bool :=
  ((0xDC00 <=? c) && (c <=? 0xDFFF))%N.

(** The inside of [QuoteJSONString]: the named escapes, [\u] escapes for
    the other control characters and for lone surrogates, every other
    character as it is. *)
Fixpoint quote_body (s : jsstring) : jsstring :=
  match s with
  | [] => []
  | c :: r =>
      if (c =? 8)%N then [92; 98]%N ++ quote_body r
      else if (c =? 9)%N then [92; 116]%N ++ quote_body r
      else if (c =? 10)%N then [92; 110]%N ++ quote_body r
      else if (c =? 12)%N then [92; 102]%N ++ quote_body r
      else if (c =? 13)%N then [92; 114]%N ++ quote_body r
      else if (c =? 34)%N then [92; 34]%N ++ quote_body r
      else if (c =? 92)%N then [92; 92]%N ++ quote_body r
      else if (c <? 32)%N then UnicodeEscape c ++ quote_body r
      else if is_leading_surrogate c then
        match r with
        | d :: r' =>
            if is_trailing_surrogate d then c :: d :: quote_body r'
            else UnicodeEscape c ++ quote_body r
        | [] => UnicodeEscape c
        end
      else if is_trailing_surrogate c then UnicodeEscape c ++ quote_body r
      else c :: quote_body r
  end.

Definition QuoteJSONString (s : jsstring) : jsstring :=
  dquote ++ quote_body s ++ dquote.

(** [JSON.stringify(info.device_type)] *)
Definition stringify (t : DeviceType) : jsstring :=
  match t with
  | RoboRIO => QuoteJSONString (js "RoboRIO")
  | Unknown => QuoteJSONString (js "Unknown")
  | Grapple model =>
      js "{" ++ QuoteJSONString (js "Grapple") ++ js ":"
         ++ QuoteJSONString model ++ js "}"
  end.

End Json.

(* ===================================================================== *)
(** ** Dispatch: [FACTORIES], [getFactory], [DeviceComponent] *)
(* ===================================================================== *)

Module Dispatch.
Import JsString Schema Dom.

(** [FactoryFunc]: from the descriptor (and [invoke], which every
    factory hands on unchanged) to the element of the handler. *)
Definition FactoryFunc := DeviceInfo -> node.

(** The own properties of the object literal [FACTORIES]. *)
Definition FACTORIES : gmap jsstring FactoryFunc :=
  list_to_map
    [ (js "OldVersionDevice",
        fun info => El "OldVersionDevice" [AInfo info; AInvoke] []);
      (js "GrappleFirmwareUpgrade",
        fun info => El "FirmwareUpdateComponent" [AInfo info; AInvoke] []);
      (js "LaserCAN",
        fun info => El "LaserCanComponent" [AInfo info; AInvoke] []);
      (js "MitoCANdria",
        fun info => El "MitocandriaComponent" [AInfo info; AInvoke] []);
      (js "FlexiCAN",
        fun info => El "FlexiCanComponent" [AInfo info; AInvoke] []) ].

(** [FACTORIES] is written as an object literal, so its prototype is
    [Object.prototype], and a property read that finds no own property
    goes on to the properties of the prototype. *)
Inductive ObjectPrototypeProperty :=
| OP_constructor
| OP_defineGetter
| OP_defineSetter
| OP_hasOwnProperty
| OP_lookupGetter
| OP_lookupSetter
| OP_isPrototypeOf
| OP_propertyIsEnumerable
| OP_toString
| OP_valueOf
| OP_proto
| OP_toLocaleString.

Definition ObjectPrototype : gmap jsstring ObjectPrototypeProperty :=
  list_to_map
    [ (js "constructor", OP_constructor);
      (js "__defineGetter__", OP_defineGetter);
      (js "__defineSetter__", OP_defineSetter);
      (js "hasOwnProperty", OP_hasOwnProperty);
      (js "__lookupGetter__", OP_lookupGetter);
      (js "__lookupSetter__", OP_lookupSetter);
      (js "isPrototypeOf", OP_isPrototypeOf);
      (js "propertyIsEnumerable", OP_propertyIsEnumerable);
      (js "toString", OP_toString);
      (js "valueOf", OP_valueOf);
      (js "__proto__", OP_proto);
      (js "toLocaleString", OP_toLocaleString) ].

(** What [FACTORIES[device_class]] evaluates to when it is not
    [undefined]. *)
Inductive property :=
| Own (f : FactoryFunc)
| Inherited (p : ObjectPrototypeProperty).

(** [getFactory]: [None] is [undefined]. *)
Definition getFactory (device_class : jsstring) : option property :=
  match FACTORIES !! device_class with
  | Some f => Some (Own f)
  | None => Inherited <$> ObjectPrototype !! device_class
  end.

(** How an evaluation ends: with a value or with a thrown [TypeError]. *)
Inductive completion (A : Type) :=
| Normal (a : A)
| TypeError.
Arguments Normal {A} a.
Arguments TypeError {A}.

(** [factory(info, invoke)], a plain call in module (strict) code, so
    an inherited function runs with [this] undefined: [Object] returns
    its object argument, [toString] names the undefined receiver, the
    others fail to turn the receiver into an object, and the value of
    [__proto__] is the prototype object, which is not callable. *)
Definition call_factory (p : property) (info : DeviceInfo)
  : completion node :=
  match p with
  | Own f => Normal (f info)
  | Inherited OP_constructor => Normal (ObjectChild info)
  | Inherited OP_toString => Normal (Text (js "[object Undefined]"))
  | Inherited _ => TypeError
  end.

Definition renderDeviceType (deviceType : DeviceType) : jsstring :=
  match deviceType with
  | RoboRIO => js "NI RoboRIO"
  | Unknown => js "Unknown Device"
  | Grapple model => model
  end.

(** [{ info.device_id != undefined && `#${info.device_id}` }] *)
Definition id_part (info : DeviceInfo) : node :=
  match device_id info with
  | Some n => Text (js "#" ++ of_N n)
  | None => Skipped
  end.

(** [{ info.name != undefined && `(${info.name})` }] *)
Definition name_part (info : DeviceInfo) : node :=
  match name info with
  | Some s => Text (js "(" ++ s ++ js ")")
  | None => Skipped
  end.

(** The [<h3>] of [DeviceComponent]. *)
Definition heading (info : DeviceInfo) : node :=
  if is_dfu info then
    El "h3" []
      [ Text (renderDeviceType (device_type info));
        id_part info;
        El "span" [AStr "className" (js "text-orange")]
          [Text (js "FIRMWARE UPDATE")] ]
  else
    El "h3" []
      [ Text (renderDeviceType (device_type info));
        id_part info;
        name_part info ].

(** [{ info.serial != undefined && `Serial: 0x${...toString(16)}` }] *)
Definition serial_part (info : DeviceInfo) : node :=
  match serial info with
  | Some n => Text (js "Serial: 0x" ++ toString16 n)
  | None => Skipped
  end.

(** [info.firmware_version != undefined && info.is_dfu ? ... : ...]:
    the conjunction is the condition of the conditional. *)
Definition version_part (info : DeviceInfo) : node :=
  if bool_decide (firmware_version info <> None) && is_dfu info then
    Text (js "Bootloader: " ++ template_opt (firmware_version info))
  else
    Text (js "Firmware: " ++ template_opt (firmware_version info)).

(** The [<p>] under the heading. *)
Definition details (info : DeviceInfo) : node :=
  if bool_decide (serial info <> None)
     || bool_decide (firmware_version info <> None)
  then El "p" [AStr "className" (js "text-muted")]
         [serial_part info; version_part info]
  else Skipped.

(** The diagnostic element for a class with no handler. *)
Definition Bug (info : DeviceInfo) (device_class : jsstring) : node :=
  El "Bug"
    [AStr "specifics"
       (js "Unknown Device Type: " ++ Json.stringify (device_type info)
          ++ js " (" ++ device_class ++ js ")")]
    [].

(** [DeviceComponent]: the children of the fragment it returns. *)
Definition DeviceComponent (info : DeviceInfo) (device_class : jsstring)
  : completion (list node) :=
  let factory := getFactory device_class in
  let body :=
    match factory with
    | Some p => call_factory p info
    | None => Normal (Bug info device_class)
    end in
  match body with
  | Normal b => Normal [heading info; details info; b]
  | TypeError => TypeError
  end.

End Dispatch.

(* ===================================================================== *)
(** ** The handlers of [GrappleDeviceHeaderComponent] *)
(* ===================================================================== *)

Module Gateway.
Import JsString JsNumber Rpc.
Local Open Scope handler_scope.

(** The range attributes of a [<FormControl type="number">]. *)
Record number_input := {
  input_min : Z;
  input_max : Z;
  input_step : Z
}.

(** The field of the change-id dialog:
    [min={0} max={0x3F - 1} step={1}]. *)
Definition changeId_input : number_input :=
  {| input_min := 0; input_max := 0x3F - 1; input_step := 1 |}.

(** The integer values the attributes admit: no range underflow, no
    range overflow, no step mismatch. *)
Definition admits (i : number_input) (v : Z) : bool :=
  (input_min i <=? v) && (v <=? input_max i)
  && ((v - input_min i) mod input_step i =? 0).

Section Handlers.
Context {R : Type}.
(** The [invoke] property: what the device answers to each call. *)
Variable invoke : call -> settled R.

(** [changeId], from the point where the dialog has resolved with
    [answer]. *)
Definition changeId (serial : N) (name : jsstring) (currentId : N)
    (answer : jsstring) : M unit :=
  let newId := or_else (Number answer) (of_Z 0) in
  p <- rpc invoke "set_id" (IdArg newId) ;;
  catch p addError.

(** [changeName], from the point where the dialog has resolved with
    [newName]. *)
Definition changeName (serial : N) (currentName : jsstring)
    (newName : jsstring) : M unit :=
  if 16 <? length newName then
    addError (js "Name is too long!")
  else
    p <- rpc invoke "set_name" (NameArg newName) ;;
    catch p addError.

(** The [onClick] of the Blink button: the promise of [rpc] is the
    value of the arrow function, and nothing is attached to it. *)
Definition blink_onClick : M unit :=
  p <- rpc invoke "blink" NoArgs ;;
  dropped p.

(** The [onClick] of the Commit Configuration button. *)
Definition commit_onClick : M unit :=
  p <- rpc invoke "commit_to_eeprom" NoArgs ;;
  dropped p.

End Handlers.

End Gateway.

(* ===================================================================== *)
(** ** [FirmwareUpdateComponent] *)
(* ===================================================================== *)

Module Upgrade.
Import JsString JsNumber Rpc Dom.
Local Open Scope handler_scope.

(** A selected file: its bytes, and whether they can still be read
    when the reader gets to them. *)
Record Blob := {
  blob_bytes : list Byte.byte;
  blob_readable : bool
}.

(** [event.target.result] when [loadend] fires: the buffer after a
    read, [null] after a failed one ([loadend] follows both). *)
Definition loadend_result (file : Blob) : option (list Byte.byte) :=
  if blob_readable file then Some (blob_bytes file) else None.

(** [Array.from(new Uint8Array(result))]: the bytes of the buffer; a
    [Uint8Array] made from [null] has length 0. *)
Definition Uint8Array_from (result : option (list Byte.byte))
  : list Byte.byte :=
  match result with
  | Some bytes => bytes
  | None => []
  end.

(** The state of one mounted component and what it has done. *)
Record session := {
  progress : option jsnumber;       (* [useState<number | null>] *)
  firmwareURL : option jsstring;    (* [useState<string | null>] *)
  interval : option Z;              (* the timer and its delay, while set *)
  mounted : bool;
  log : list effect
}.

Definition progress_call : call := Call "progress" NoArgs.
Definition firmware_url_call : call := Call "get_firmware_url" NoArgs.

(** After the first render and its effect: the timer is set to 250 ms
    and the firmware URL has been asked for. *)
Definition mount : session :=
  {| progress := None;
     firmwareURL := None;
     interval := Some 250;
     mounted := true;
     log := [Invoked firmware_url_call] |}.

(** A state setter does nothing once the component is unmounted. *)
Definition setProgress (st : session) (v : option jsnumber) : session :=
  if mounted st then
    {| progress := v; firmwareURL := firmwareURL st;
       interval := interval st; mounted := mounted st; log := log st |}
  else st.

Definition setFirmwareURL (st : session) (v : option jsstring) : session :=
  if mounted st then
    {| progress := progress st; firmwareURL := v;
       interval := interval st; mounted := mounted st; log := log st |}
  else st.

Definition record (st : session) (l : list effect) : session :=
  {| progress := progress st; firmwareURL := firmwareURL st;
     interval := interval st; mounted := mounted st;
     log := log st ++ l |}.

(** The cleanup of the effect: [clearInterval(interval)]. *)
Definition unmount (st : session) : session :=
  {| progress := progress st; firmwareURL := firmwareURL st;
     interval := None; mounted := false; log := log st |}.

(** [{ firmwareURL && <Row className="mb-2"> ... </Row> }] *)
Definition link_part (url : option jsstring) : node :=
  match url with
  | None => Skipped
  | Some [] => Text []
  | Some u =>
      El "Row" [AStr "className" (js "mb-2")]
        [El "Col" [AStr "className" (js "text-muted")]
           [ El "FontAwesomeIcon" [AStr "icon" (js "faInfoCircle")] [];
             Text (js "You can download new firmware for this device");
             El "a" [AStr "target" (js "_blank"); AStr "href" u]
               [Text (js "here.")] ]]
  end.

Definition upload_control : node :=
  El "Row" []
    [El "Col" []
       [El "FormControl"
          [AStr "type" (js "file");
           AStr "accept" (js ".grplfw,.grplbndl")] []]].

Definition progress_indicator (now : jsnumber) : node :=
  El "Row" []
    [El "Col" []
       [El "ProgressBar"
          [ANum "min" (of_Z 0); ANum "max" (of_Z 100); ANum "now" now;
           AStr "variant" (js "purple"); AFlag "animated";
           AFlag "striped"] []]].

(** The two branches of [progress ? ... : ...]. *)
Definition idle_display (url : option jsstring) : list node :=
  [link_part url; upload_control].

(** What the component returns in a state. *)
Definition render (st : session) : list node :=
  match progress st with
  | Some p =>
      if ToBoolean p then [progress_indicator p]
      else idle_display (firmwareURL st)
  | None => idle_display (firmwareURL st)
  end.

Section Session.
Context {R : Type}.
(** What the device answers to an upload. *)
Variable invoke : call -> settled R.

(** [uploadFirmware]: the listener of [loadend] sends what the reader
    holds, and reports a failed call. *)
Definition uploadFirmware (file : Blob) : M unit :=
  p <- rpc invoke "do_field_upgrade"
         (DataArg (Uint8Array_from (loadend_result file))) ;;
  catch p addError.

(** What can happen to a session. *)
Inductive event :=
| Tick                                        (* the interval elapses *)
| ProgressSettled (r : settled (option jsnumber))
| UrlSettled (r : settled (option jsstring))
| FileSelected (file : Blob)
| Unmount.

Definition step (st : session) (ev : event) : session :=
  match ev with
  | Tick =>
      match interval st with
      | Some _ => record st [Invoked progress_call]
      | None => st                    (* a cleared timer does not fire *)
      end
  | ProgressSettled (Fulfilled v) => setProgress st v
  | ProgressSettled (Rejected _) => st
  | UrlSettled (Fulfilled u) => setFirmwareURL st u
  | UrlSettled (Rejected _) => st
  | FileSelected file =>
      if mounted st && shows "FormControl" (render st)
      then record st (effects (uploadFirmware file))
      else st
  | Unmount => unmount st
  end.

Definition run (st : session) (evs : list event) : session :=
  fold_left step evs st.

End Session.

(** The polls a session has issued so far. *)
Definition is_poll (c : call) : bool := String.eqb (method c) "progress".

Definition polls (st : session) : list call :=
  List.filter is_poll (invocations (log st)).

(** The events of a stretch of failing polls: the timer elapsing, and
    a poll ending in a failure. *)
Definition tick_or_failed_poll (ev : event) : bool :=
  match ev with
  | Tick => true
  | ProgressSettled (Rejected _) => true
  | _ => false
  end.

Definition is_tick (ev : event) : bool :=
  match ev with
  | Tick => true
  | _ => false
  end.

(** A poll that brings a number. *)
Definition brings_number (ev : event) : bool :=
  match ev with
  | ProgressSettled (Fulfilled (Some _)) => true
  | _ => false
  end.

End Upgrade.

(* ===================================================================== *)
(** ** The dialogs, the buttons and [startFieldUpgrade] *)
(* ===================================================================== *)

Module Header.
Import JsString JsNumber Schema Rpc Dom.

(** What a dialog of [confirmModal] is opened with: the text it is about
    and the options [data], [title] and [okText]. *)
Record modal := {
  confirmation : jsstring;
  data : jsstring;
  title : jsstring;
  okText : jsstring
}.

(** The dialog of [changeId]: [confirmModal("" + serial, { data:
    String(currentId), title: "Set New ID", okText: "Set ID", ... })]. *)
Definition changeId_modal (serial : N) (currentId : N) : modal :=
  {| confirmation := of_N serial;
     data := of_N currentId;
     title := js "Set New ID";
     okText := js "Set ID" |}.

(** The dialog of [changeName]. *)
Definition changeName_modal (serial : N) (currentName : jsstring) : modal :=
  {| confirmation := of_N serial;
     data := currentName;
     title := js "Set New Name";
     okText := js "Set Name" |}.

(** Modelled from the spec: the known latest release ([LightReleaseResponse]
    of [../schema]), a version tag and an announcement URL. *)
Record LightReleaseResponse := {
  tag_name : jsstring;
  html_url : jsstring
}.

(** The functions the buttons are given as [onClick]. *)
Inductive handler :=
| OnBlink
| OnChangeId
| OnChangeName
| OnStartFieldUpgrade
| OnCommit.

(** A [<Button size="sm" className="mx-1">]. *)
Record Button := {
  variant : jsstring;
  onClick : handler;
  caption : jsstring
}.

(** What [GrappleDeviceHeaderComponent] returns: the buttons of its two
    columns and what follows the row. *)
Record view := {
  left_col : list Button;
  right_col : list Button;
  update_alert : node
}.

(** [{ update_details && <Row className="mt-3 mb-1"> ... </Row> }] *)
Definition alert_part (update_details : option LightReleaseResponse) : node :=
  match update_details with
  | None => Skipped
  | Some d =>
      El "Row" [AStr "className" (js "mt-3 mb-1")]
        [El "Col" []
           [El "Alert" [AStr "variant" (js "orange")]
              [ El "span" [AStr "style" (js "fontSize: 1.5em")]
                  [ El "FontAwesomeIcon"
                      [AStr "icon" (js "faMagicWandSparkles")] [];
                    Text (js " " ++ [160%N] ++ js " Update Available! ") ];
                El "br" [] [];
                El "span" []
                  [ Text (js "Version ");
                    El "strong" [] [Text (tag_name d)];
                    Text (js " is available for this device. ") ];
                Text (js "Download the release ");
                El "a" [AStr "target" (js "_blank"); AStr "href" (html_url d)]
                  [Text (js "here")];
                Text (js " and upgrade using the " ++ dquote
                        ++ js "Firmware Upgrade" ++ dquote
                        ++ js " button above.")
              ]]]
  end.

(** The component, for a [start_dfu] that is given or not. *)
Definition GrappleDeviceHeaderComponent (has_start_dfu : bool)
    (update_details : option LightReleaseResponse) : view :=
  {| left_col :=
       [ {| variant := js "info"; onClick := OnBlink;
            caption := js "Blink" |};
         {| variant := js "secondary"; onClick := OnChangeId;
            caption := js "Change ID" |};
         {| variant := js "secondary"; onClick := OnChangeName;
            caption := js "Change Name" |} ];
     right_col :=
       (if has_start_dfu then
          [ {| variant := match update_details with
                          | Some _ => js "orange"
                          | None => js "purple"
                          end;
               onClick := OnStartFieldUpgrade;
               caption := js "Firmware Upgrade" |} ]
        else [])
       ++ [ {| variant := js "success"; onClick := OnCommit;
               caption := js "Commit Configuration" |} ];
     update_alert := alert_part update_details |}.

(** [startFieldUpgrade], from the point where [confirmBool] has resolved
    with [do_upgrade]: [start_dfu!()] runs what it is given, and fails
    when it is given nothing. *)
Definition startFieldUpgrade (start_dfu : option (M unit))
    (do_upgrade : bool) : Dispatch.completion (M unit) :=
  if do_upgrade then
    match start_dfu with
    | Some run_dfu => Dispatch.Normal run_dfu
    | None => Dispatch.TypeError
    end
  else Dispatch.Normal (ret tt).

(** What the operator answers to the dialogs. *)
Record operator := {
  id_answer : jsstring;
  name_answer : jsstring;
  confirms_upgrade : bool
}.

(** A click on a button, for a descriptor that has a serial, a name and
    an id. *)
Definition click {R} (invoke : call -> settled R)
    (serial : N) (name : jsstring) (device_id : N)
    (start_dfu : option (M unit)) (op : operator) (h : handler)
  : Dispatch.completion (M unit) :=
  match h with
  | OnBlink => Dispatch.Normal (Gateway.blink_onClick invoke)
  | OnChangeId =>
      Dispatch.Normal
        (Gateway.changeId invoke serial name device_id (id_answer op))
  | OnChangeName =>
      Dispatch.Normal (Gateway.changeName invoke serial name (name_answer op))
  | OnStartFieldUpgrade => startFieldUpgrade start_dfu (confirms_upgrade op)
  | OnCommit => Dispatch.Normal (Gateway.commit_onClick invoke)
  end.

End Header.

(* ===================================================================== *)
(** ** Reading a run of a session *)
(* ===================================================================== *)

Module Trace.
Import JsString JsNumber Rpc Upgrade.

(** The times the timer elapses before the session is torn down. *)
Fixpoint ticks_while_mounted (evs : list event) : nat :=
  match evs with
  | [] => 0%nat
  | Tick :: r => S (ticks_while_mounted r)
  | Unmount :: _ => 0%nat
  | _ :: r => ticks_while_mounted r
  end.

(** The value of the last poll that was fulfilled before the teardown,
    and [init] when there is none. *)
Fixpoint last_fulfilled (init : option jsnumber) (evs : list event)
  : option jsnumber :=
  match evs with
  | [] => init
  | ProgressSettled (Fulfilled v) :: r => last_fulfilled v r
  | Unmount :: _ => init
  | _ :: r => last_fulfilled init r
  end.

Definition is_file (ev : event) : bool :=
  match ev with
  | FileSelected _ => true
  | _ => false
  end.

Definition is_url_call (c : call) : bool :=
  String.eqb (method c) "get_firmware_url".

End Trace.

(* ===================================================================== *)
(** ** Decimal digits *)
(* ===================================================================== *)

Module Digits.

(** The digits of a decimal numeral, most significant first. *)
Fixpoint digits_of_uint (d : Decimal.uint) : list N :=
  match d with
  | Decimal.Nil => []
  | Decimal.D0 l => 0%N :: digits_of_uint l
  | Decimal.D1 l => 1%N :: digits_of_uint l
  | Decimal.D2 l => 2%N :: digits_of_uint l
  | Decimal.D3 l => 3%N :: digits_of_uint l
  | Decimal.D4 l => 4%N :: digits_of_uint l
  | Decimal.D5 l => 5%N :: digits_of_uint l
  | Decimal.D6 l => 6%N :: digits_of_uint l
  | Decimal.D7 l => 7%N :: digits_of_uint l
  | Decimal.D8 l => 8%N :: digits_of_uint l
  | Decimal.D9 l => 9%N :: digits_of_uint l
  end.

(** The character of a digit. *)
Definition digit_char (d : N) : JsString.code_unit := (48 + d)%N.

End Digits.

(* ===================================================================== *)
(** * Properties *)
(* ===================================================================== *)

Import JsString JsNumber Schema Rpc Dom.

(** ** Sanity checks of the string and number model *)

Example Number_examples :
  Number (js "62") = of_Z 62
  /\ Number (js " 7 ") = of_Z 7
  /\ Number (js "0x3f") = of_Z 63
  /\ Number [] = pos_zero
  /\ Number (js "1e-400") = pos_zero
  /\ Number (js "0.5") = S754_finite false 4503599627370496 (-53)
  /\ Number (js "-Infinity") = S754_infinity true
  /\ Number (js "abc") = NaN
  /\ Number (js "12abc") = NaN
  /\ Number (js "6 2") = NaN
  /\ Number (js "-0x10") = NaN.
Proof. vm_compute. repeat split. Qed.

Example printing_examples :
  of_N 62 = js "62" /\ toString16 255 = js "ff" /\ length (js "LaserCAN") = 8.
Proof. vm_compute. repeat split. Qed.

Example stringify_examples :
  Json.stringify RoboRIO = dquote ++ js "RoboRIO" ++ dquote
  /\ Json.stringify (Grapple (js "LaserCAN"))
     = js "{" ++ dquote ++ js "Grapple" ++ dquote ++ js ":"
         ++ dquote ++ js "LaserCAN" ++ dquote ++ js "}"
  /\ Json.quote_body [10; 34; 0xD800; 65]%N
     = js "\n\" ++ dquote ++ js "\ud800A".
Proof. vm_compute. repeat split. Qed.

(* --------------------------------------------------------------------- *)
(** ** The writer monad *)
(* --------------------------------------------------------------------- *)

Lemma effects_rpc_catch {R} (invoke : call -> settled R) m a :
  effects (Rpc.bind (rpc invoke m a) (fun p => catch p addError))
  = Invoked (Call m a)
      :: match invoke (Call m a) with
         | Fulfilled _ => []
         | Rejected e => [Toast e]
         end.
Proof.
  unfold effects, rpc, Rpc.bind, tell, ret, catch, addError; simpl.
  destruct (invoke (Call m a)); reflexivity.
Qed.

Lemma effects_rpc_dropped {R} (invoke : call -> settled R) m a :
  effects (Rpc.bind (rpc invoke m a) (fun p => dropped p))
  = Invoked (Call m a)
      :: match invoke (Call m a) with
         | Fulfilled _ => []
         | Rejected e => [Unhandled e]
         end.
Proof.
  unfold effects, rpc, Rpc.bind, tell, ret, dropped; simpl.
  destruct (invoke (Call m a)); reflexivity.
Qed.

(* --------------------------------------------------------------------- *)
(** ** Change name *)
(* --------------------------------------------------------------------- *)

Section ChangeName.
Context {R : Type} (invoke : call -> settled R).
Variables (serial : N) (currentName : jsstring).

Lemma changeName_long (newName : jsstring) :
  16 < length newName ->
  effects (Gateway.changeName invoke serial currentName newName)
  = [Toast (js "Name is too long!")].
Proof.
  intros H. unfold Gateway.changeName.
  destruct (Z.ltb_spec 16 (length newName)); [reflexivity | lia].
Qed.

Lemma changeName_short (newName : jsstring) :
  length newName <= 16 ->
  effects (Gateway.changeName invoke serial currentName newName)
  = Invoked (Call "set_name" (NameArg newName))
      :: match invoke (Call "set_name" (NameArg newName)) with
         | Fulfilled _ => []
         | Rejected e => [Toast e]
         end.
Proof.
  intros H. unfold Gateway.changeName.
  destruct (Z.ltb_spec 16 (length newName)); [lia |].
  apply effects_rpc_catch.
Qed.

End ChangeName.

(** C2. A candidate name of more than 16 characters is answered with the
    validation error alone: nothing is sent to the device.  A candidate
    of at most 16 characters is sent in exactly one [set_name] call that
    carries it. *)
Theorem changeName_validates_length {R} (invoke : call -> settled R)
    (serial : N) (currentName newName : jsstring) :
  let done := effects (Gateway.changeName invoke serial currentName newName) in
  (16 < length newName ->
     toasts done = [js "Name is too long!"] /\ invocations done = [])
  /\ (length newName <= 16 ->
        invocations done = [Call "set_name" (NameArg newName)]).
Proof.
  cbv zeta. split; intros H.
  - rewrite changeName_long by exact H. split; reflexivity.
  - rewrite changeName_short by exact H.
    destruct (invoke _); reflexivity.
Qed.

Lemma changeName_validates_length_witness :
  (toasts (effects (Gateway.changeName (fun _ => Fulfilled tt) 7 (js "old")
                      (js "ThisNameIsWayTooLongToFit")))
   = [js "Name is too long!"]
   /\ invocations (effects (Gateway.changeName (fun _ => Fulfilled tt) 7
                              (js "old") (js "ThisNameIsWayTooLongToFit")))
      = [])
  /\ invocations (effects (Gateway.changeName (fun _ => Fulfilled tt) 7
                             (js "old") (js "SixteenCharsName")))
     = [Call "set_name" (NameArg (js "SixteenCharsName"))].
Proof.
  split.
  - apply (changeName_validates_length (fun _ => Fulfilled tt) 7 (js "old")
             (js "ThisNameIsWayTooLongToFit")).
    vm_compute. reflexivity.
  - apply (changeName_validates_length (fun _ => Fulfilled tt) 7 (js "old")
             (js "SixteenCharsName")).
    vm_compute. discriminate.
Defined.

(* --------------------------------------------------------------------- *)
(** ** Change id *)
(* --------------------------------------------------------------------- *)

Lemma changeId_effects {R} (invoke : call -> settled R)
    (serial : N) (name : jsstring) (currentId : N) (answer : jsstring) :
  effects (Gateway.changeId invoke serial name currentId answer)
  = let c := Call "set_id" (IdArg (or_else (Number answer) (of_Z 0))) in
    Invoked c
      :: match invoke c with
         | Fulfilled _ => []
         | Rejected e => [Toast e]
         end.
Proof. unfold Gateway.changeId. apply effects_rpc_catch. Qed.

(** The values the range attributes of the id field admit. *)
Lemma changeId_input_range (v : Z) :
  Gateway.admits Gateway.changeId_input v = true <-> 0 <= v <= 62.
Proof.
  unfold Gateway.admits, Gateway.changeId_input; simpl.
  rewrite Z.mod_1_r, !andb_true_iff, !Z.leb_le, Z.eqb_eq. lia.
Qed.

(** C3, as the specification states it, fails: the field admits 62, and
    a confirmed 62 is sent to the device as the new id. *)
Lemma changeId_input_admits_62 :
  Gateway.admits Gateway.changeId_input 62 = true
  /\ invocations
       (effects (Gateway.changeId (fun _ => Fulfilled tt) 7 (js "dev") 5
                   (js "62")))
     = [Call "set_id" (IdArg (of_Z 62))]
  /\ ~ (forall v, Gateway.admits Gateway.changeId_input v = true
                  -> 0 <= v <= 61).
Proof.
  split; [reflexivity |]. split; [vm_compute; reflexivity |].
  intros H. specialize (H 62 eq_refl). lia.
Qed.

(** C3, amended.  The id field is constrained to the range from 0 to
    [0x3F - 1], which is 62: it admits exactly the integers of [0, 62];
    the boundary values 0 and 62 are accepted and 63 is rejected. *)
Theorem changeId_input_range_0_62 :
  (forall v, Gateway.admits Gateway.changeId_input v = true <-> 0 <= v <= 62)
  /\ Gateway.admits Gateway.changeId_input 0 = true
  /\ Gateway.admits Gateway.changeId_input 61 = true
  /\ Gateway.admits Gateway.changeId_input 62 = true
  /\ Gateway.admits Gateway.changeId_input 63 = false
  /\ Gateway.admits Gateway.changeId_input (-1) = false.
Proof.
  split; [exact changeId_input_range |]. repeat split.
Qed.

(** C4. When the confirmed input does not parse as a number, [changeId]
    takes 0 as the new id and sends it: one [set_id] call with id 0 is all
    it sends, and the only report it can make is that of a failed call. *)
Theorem changeId_unparsable_sends_zero {R} (invoke : call -> settled R)
    (serial : N) (name : jsstring) (currentId : N) (answer : jsstring) :
  Number answer = NaN ->
  let done := effects (Gateway.changeId invoke serial name currentId answer) in
  invocations done = [Call "set_id" (IdArg (of_Z 0))]
  /\ toasts done
     = match invoke (Call "set_id" (IdArg (of_Z 0))) with
       | Fulfilled _ => []
       | Rejected e => [e]
       end.
Proof.
  intros HNaN. cbv zeta. rewrite changeId_effects, HNaN. cbv zeta.
  change (or_else NaN (of_Z 0)) with (of_Z 0).
  destruct (invoke _); split; reflexivity.
Qed.

(** A blank input is not [NaN] for [Number]: it is 0, and 0 is sent. *)
Lemma changeId_blank_sends_zero {R} (invoke : call -> settled R)
    (serial : N) (name : jsstring) (currentId : N) :
  Number [] = of_Z 0
  /\ invocations (effects (Gateway.changeId invoke serial name currentId []))
     = [Call "set_id" (IdArg (of_Z 0))].
Proof.
  split; [reflexivity |]. rewrite changeId_effects. cbv zeta.
  change (or_else (Number []) (of_Z 0)) with (of_Z 0).
  destruct (invoke _); reflexivity.
Qed.

Lemma changeId_unparsable_sends_zero_witness :
  Number (js "abc") = NaN
  /\ invocations
       (effects (Gateway.changeId (fun _ => Fulfilled tt) 7 (js "dev") 5
                   (js "abc")))
     = [Call "set_id" (IdArg (of_Z 0))].
Proof.
  split; [vm_compute; reflexivity |].
  apply (changeId_unparsable_sends_zero (fun _ => Fulfilled tt) 7 (js "dev") 5
           (js "abc")).
  vm_compute. reflexivity.
Defined.

(* --------------------------------------------------------------------- *)
(** ** Blink and commit *)
(* --------------------------------------------------------------------- *)

(** Both buttons send their call once, whatever the answer. *)
Lemma utility_actions_send_once {R} (invoke : call -> settled R) :
  invocations (effects (Gateway.blink_onClick invoke))
  = [Call "blink" NoArgs]
  /\ invocations (effects (Gateway.commit_onClick invoke))
     = [Call "commit_to_eeprom" NoArgs].
Proof.
  unfold Gateway.blink_onClick, Gateway.commit_onClick.
  rewrite !effects_rpc_dropped.
  split; destruct (invoke _); reflexivity.
Qed.

(** C9 does not hold of the code.  When the [blink] call or the
    [commit_to_eeprom] call fails, the handler has sent the call once and
    the failure is left unhandled: [addError] is not reached, so nothing
    is reported to the operator. *)
Theorem utility_failure_not_reported {R} (invoke : call -> settled R)
    (e : error) :
  invoke (Call "blink" NoArgs) = Rejected e ->
  invoke (Call "commit_to_eeprom" NoArgs) = Rejected e ->
  effects (Gateway.blink_onClick invoke)
  = [Invoked (Call "blink" NoArgs); Unhandled e]
  /\ toasts (effects (Gateway.blink_onClick invoke)) = []
  /\ effects (Gateway.commit_onClick invoke)
     = [Invoked (Call "commit_to_eeprom" NoArgs); Unhandled e]
  /\ toasts (effects (Gateway.commit_onClick invoke)) = [].
Proof.
  intros Hb Hc. unfold Gateway.blink_onClick, Gateway.commit_onClick.
  rewrite !effects_rpc_dropped, Hb, Hc. repeat split.
Qed.

Lemma utility_failure_not_reported_witness :
  toasts (effects (Gateway.blink_onClick
                     (fun _ => @Rejected unit (js "device disconnected"))))
  = [].
Proof.
  apply (utility_failure_not_reported
           (fun _ => @Rejected unit (js "device disconnected"))
           (js "device disconnected")); reflexivity.
Defined.

(** The sibling handlers do report the same failure. *)
Lemma identity_failure_reported {R} (invoke : call -> settled R)
    (serial : N) (name : jsstring) (currentId : N) (answer : jsstring)
    (e : error) :
  (forall c, invoke c = Rejected e) ->
  toasts (effects (Gateway.changeId invoke serial name currentId answer)) = [e]
  /\ (length answer <= 16 ->
      toasts (effects (Gateway.changeName invoke serial name answer)) = [e]).
Proof.
  intros H. split.
  - rewrite changeId_effects. cbv zeta. rewrite H. reflexivity.
  - intros Hlen. rewrite changeName_short by exact Hlen.
    rewrite H. reflexivity.
Qed.

(* --------------------------------------------------------------------- *)
(** ** Upload *)
(* --------------------------------------------------------------------- *)

Lemma uploadFirmware_effects {R} (invoke : call -> settled R)
    (file : Upgrade.Blob) :
  effects (Upgrade.uploadFirmware invoke file)
  = let c := Call "do_field_upgrade"
               (DataArg (Upgrade.Uint8Array_from
                           (Upgrade.loadend_result file))) in
    Invoked c
      :: match invoke c with
         | Fulfilled _ => []
         | Rejected e => [Toast e]
         end.
Proof. unfold Upgrade.uploadFirmware. apply effects_rpc_catch. Qed.

(** A file that is read gives one call that carries its bytes. *)
Lemma uploadFirmware_readable {R} (invoke : call -> settled R)
    (file : Upgrade.Blob) :
  Upgrade.blob_readable file = true ->
  invocations (effects (Upgrade.uploadFirmware invoke file))
  = [Call "do_field_upgrade" (DataArg (Upgrade.blob_bytes file))].
Proof.
  intros H. rewrite uploadFirmware_effects. cbv zeta.
  unfold Upgrade.loadend_result. rewrite H. simpl.
  destruct (invoke _); reflexivity.
Qed.

(** Every selection gives exactly one call. *)
Lemma uploadFirmware_once {R} (invoke : call -> settled R)
    (file : Upgrade.Blob) :
  List.length (invocations (effects (Upgrade.uploadFirmware invoke file)))
  = 1%nat.
Proof.
  rewrite uploadFirmware_effects. cbv zeta.
  destruct (invoke _); reflexivity.
Qed.

(** C5 does not hold of the code in one case.  The call is sent from the
    [loadend] listener, and [loadend] also follows a read that failed,
    when the reader holds [null]: for a selected file of two bytes that
    cannot be read, the one call that is sent carries no bytes. *)
Theorem uploadFirmware_failed_read_sends_empty :
  let file := {| Upgrade.blob_bytes := [Byte.x47; Byte.x52];
                 Upgrade.blob_readable := false |} in
  invocations (effects (Upgrade.uploadFirmware (fun _ => Fulfilled tt) file))
  = [Call "do_field_upgrade" (DataArg [])]
  /\ Upgrade.blob_bytes file <> [].
Proof. split; [reflexivity | discriminate]. Qed.

(* --------------------------------------------------------------------- *)
(** ** Dispatch *)
(* --------------------------------------------------------------------- *)

Section DispatchProperties.
Import Dispatch.
Variable info : DeviceInfo.

(** The registered names are the five keys of the literal, and nothing
    else: the lookup compares whole strings. *)
Lemma registered_names (device_class : jsstring) (f : FactoryFunc) :
  FACTORIES !! device_class = Some f ->
  In device_class
     [js "OldVersionDevice"; js "GrappleFirmwareUpgrade"; js "LaserCAN";
      js "MitoCANdria"; js "FlexiCAN"].
Proof.
  intros H. apply elem_of_list_to_map_2 in H.
  repeat (apply elem_of_cons in H; destruct H as [H | H];
          [inversion H; subst; simpl; tauto |]).
  inversion H.
Qed.

(** A registered name is dispatched to the handler written next to it. *)
Lemma dispatch_registered :
  DeviceComponent info (js "OldVersionDevice")
  = Normal [heading info; details info;
            El "OldVersionDevice" [AInfo info; AInvoke] []]
  /\ DeviceComponent info (js "GrappleFirmwareUpgrade")
     = Normal [heading info; details info;
               El "FirmwareUpdateComponent" [AInfo info; AInvoke] []]
  /\ DeviceComponent info (js "LaserCAN")
     = Normal [heading info; details info;
               El "LaserCanComponent" [AInfo info; AInvoke] []]
  /\ DeviceComponent info (js "MitoCANdria")
     = Normal [heading info; details info;
               El "MitocandriaComponent" [AInfo info; AInvoke] []]
  /\ DeviceComponent info (js "FlexiCAN")
     = Normal [heading info; details info;
               El "FlexiCanComponent" [AInfo info; AInvoke] []].
Proof. repeat split. Qed.

(** A prefix or another spelling of a registered name is not found. *)
Example dispatch_no_prefix_matching :
  getFactory (js "LaserCA") = None
  /\ getFactory (js "LaserCAN2") = None
  /\ getFactory (js "lasercan") = None.
Proof. repeat split. Qed.

(** A name that is neither a key of the literal nor a property of
    [Object.prototype] gets the diagnostic element, which carries the
    type tag and the class name; nothing is thrown. *)
Lemma dispatch_unknown_name (device_class : jsstring) :
  FACTORIES !! device_class = None ->
  ObjectPrototype !! device_class = None ->
  DeviceComponent info device_class
  = Normal [heading info; details info;
            El "Bug"
              [AStr "specifics"
                 (js "Unknown Device Type: "
                    ++ Json.stringify (device_type info)
                    ++ js " (" ++ device_class ++ js ")")] []].
Proof.
  intros HF HP. unfold DeviceComponent, getFactory.
  rewrite HF, HP. reflexivity.
Qed.

(** No property of [Object.prototype] is a registered name. *)
Lemma prototype_names_unregistered (device_class : jsstring)
    (p : ObjectPrototypeProperty) :
  ObjectPrototype !! device_class = Some p ->
  FACTORIES !! device_class = None
  /\ getFactory device_class = Some (Inherited p).
Proof.
  intros H. apply elem_of_list_to_map_2 in H.
  repeat (apply elem_of_cons in H; destruct H as [H | H];
          [inversion H; subst; split; reflexivity |]).
  inversion H.
Qed.

(** For every name inherited from the prototype the lookup succeeds, and
    what is returned or thrown is not the diagnostic element. *)
Lemma inherited_names_miss_fallback (device_class : jsstring)
    (p : ObjectPrototypeProperty) :
  ObjectPrototype !! device_class = Some p ->
  DeviceComponent info device_class
  <> Normal [heading info; details info; Bug info device_class].
Proof.
  intros H. destruct (prototype_names_unregistered _ _ H) as [_ Hg].
  unfold DeviceComponent. rewrite Hg.
  destruct p; simpl; discriminate.
Qed.

End DispatchProperties.

(** C7 does not hold of the code for the class names that [FACTORIES]
    inherits from [Object.prototype].  None of them is registered, yet
    the lookup does not give [undefined] for them, so the diagnostic
    element is not produced: for [constructor] the descriptor itself
    comes back in child position, for [toString] a text, and for
    [__proto__] the call throws. *)
Theorem dispatch_inherited_name_misses_fallback (info : DeviceInfo) :
  Dispatch.FACTORIES !! js "constructor" = None
  /\ Dispatch.getFactory (js "constructor")
     = Some (Dispatch.Inherited Dispatch.OP_constructor)
  /\ Dispatch.DeviceComponent info (js "constructor")
     = Dispatch.Normal
         [Dispatch.heading info; Dispatch.details info; ObjectChild info]
  /\ Dispatch.DeviceComponent info (js "toString")
     = Dispatch.Normal
         [Dispatch.heading info; Dispatch.details info;
          Text (js "[object Undefined]")]
  /\ Dispatch.FACTORIES !! js "__proto__" = None
  /\ Dispatch.DeviceComponent info (js "__proto__") = Dispatch.TypeError.
Proof. repeat split. Qed.

(* --------------------------------------------------------------------- *)
(** ** The heading of a device in bootloader mode *)
(* --------------------------------------------------------------------- *)

(** C10. For a descriptor with the bootloader flag set, the heading is
    made of the label of the device type, the bus id after a [#] when
    there is one, and the marker FIRMWARE UPDATE; it is the same whatever
    the name of the device; and a firmware version that is present is
    shown after the label [Bootloader:]. The heading and the line under
    it are the first two children that [DeviceComponent] returns. *)
Theorem dfu_heading (info : DeviceInfo) :
  is_dfu info = true ->
  Dispatch.heading info
  = El "h3" []
      [ Text (Dispatch.renderDeviceType (device_type info));
        match device_id info with
        | Some n => Text (js "#" ++ of_N n)
        | None => Skipped
        end;
        El "span" [AStr "className" (js "text-orange")]
          [Text (js "FIRMWARE UPDATE")] ]
  /\ (forall n, Dispatch.heading (with_name info n) = Dispatch.heading info)
  /\ (forall v, firmware_version info = Some v ->
        Dispatch.details info
        = El "p" [AStr "className" (js "text-muted")]
            [ Dispatch.serial_part info; Text (js "Bootloader: " ++ v) ])
  /\ (forall device_class l,
        Dispatch.DeviceComponent info device_class = Dispatch.Normal l ->
        exists body,
          l = [Dispatch.heading info; Dispatch.details info; body]).
Proof.
  intros Hdfu. repeat split.
  - unfold Dispatch.heading. rewrite Hdfu. reflexivity.
  - intros n. unfold Dispatch.heading, with_name; simpl.
    rewrite Hdfu. reflexivity.
  - intros v Hv. unfold Dispatch.details, Dispatch.version_part.
    rewrite Hv, Hdfu.
    rewrite (bool_decide_eq_true_2 (Some v <> None)) by discriminate.
    rewrite orb_true_r. reflexivity.
  - intros dc l H. unfold Dispatch.DeviceComponent in H.
    destruct (match Dispatch.getFactory dc with
              | Some p => Dispatch.call_factory p info
              | None => Dispatch.Normal (Dispatch.Bug info dc)
              end) as [b |]; [| discriminate].
    inversion H. eauto.
Qed.

Lemma dfu_heading_witness :
  let info := {| device_type := Grapple (js "LaserCAN");
                 device_id := Some 5%N;
                 name := Some (js "front");
                 serial := Some 0xBEEF%N;
                 firmware_version := Some (js "2024.1.0");
                 is_dfu := true |} in
  Dispatch.heading info
  = El "h3" []
      [ Text (js "LaserCAN"); Text (js "#5");
        El "span" [AStr "className" (js "text-orange")]
          [Text (js "FIRMWARE UPDATE")] ]
  /\ Dispatch.details info
     = El "p" [AStr "className" (js "text-muted")]
         [ Text (js "Serial: 0xbeef"); Text (js "Bootloader: 2024.1.0") ].
Proof.
  cbv zeta. split.
  - apply (dfu_heading
             {| device_type := Grapple (js "LaserCAN");
                device_id := Some 5%N;
                name := Some (js "front");
                serial := Some 0xBEEF%N;
                firmware_version := Some (js "2024.1.0");
                is_dfu := true |}).
    reflexivity.
  - apply (dfu_heading
             {| device_type := Grapple (js "LaserCAN");
                device_id := Some 5%N;
                name := Some (js "front");
                serial := Some 0xBEEF%N;
                firmware_version := Some (js "2024.1.0");
                is_dfu := true |}
             eq_refl).
    reflexivity.
Defined.

(* --------------------------------------------------------------------- *)
(** ** The upgrade session *)
(* --------------------------------------------------------------------- *)

Section SessionProperties.
Import Upgrade.
Context {R : Type} (invoke : call -> settled R).

Lemma polls_record (st : session) (l : list effect) :
  polls (record st l) = polls st ++ List.filter is_poll (invocations l).
Proof.
  unfold polls, record, invocations; simpl.
  rewrite omap_app. apply List.filter_app.
Qed.

Lemma toasts_record_invoked (st : session) (c : call) :
  toasts (log (record st [Invoked c])) = toasts (log st).
Proof.
  unfold toasts, record; simpl. rewrite omap_app; simpl.
  apply app_nil_r.
Qed.

(** One event of a stretch of failing polls: only a timer that is set
    adds to the log, and what it adds is one poll. *)
Lemma step_tick_or_failed_poll (st : session) (ev : event) :
  tick_or_failed_poll ev = true ->
  progress (step invoke st ev) = progress st
  /\ firmwareURL (step invoke st ev) = firmwareURL st
  /\ interval (step invoke st ev) = interval st
  /\ toasts (log (step invoke st ev)) = toasts (log st)
  /\ polls (step invoke st ev)
     = polls st
         ++ (if is_tick ev && bool_decide (interval st <> None)
             then [progress_call] else []).
Proof.
  destruct ev as [| [v | e] | | |]; try discriminate; intros _; simpl.
  - destruct (interval st) as [d |] eqn:Hd.
    + rewrite toasts_record_invoked, polls_record; simpl.
      rewrite Hd. repeat split.
    + rewrite (bool_decide_eq_false_2 (None <> None)) by tauto.
      rewrite app_nil_r, Hd. repeat split.
  - rewrite app_nil_r. repeat split.
Qed.

Lemma run_tick_or_failed_poll (evs : list event) : forall st : session,
  Forall (fun ev => tick_or_failed_poll ev = true) evs ->
  progress (run invoke st evs) = progress st
  /\ firmwareURL (run invoke st evs) = firmwareURL st
  /\ interval (run invoke st evs) = interval st
  /\ toasts (log (run invoke st evs)) = toasts (log st)
  /\ (interval st <> None ->
      polls (run invoke st evs)
      = polls st
          ++ replicate (List.length (List.filter is_tick evs))
               progress_call).
Proof.
  induction evs as [| ev evs IH]; intros st Hall.
  - simpl. rewrite app_nil_r. repeat split.
  - apply Forall_cons in Hall as [Hev Hall].
    destruct (step_tick_or_failed_poll st ev Hev)
      as (Hp & Hu & Hi & Ht & Hq).
    destruct (IH (step invoke st ev) Hall) as (Hp' & Hu' & Hi' & Ht' & Hq').
    change (run invoke st (ev :: evs))
      with (run invoke (step invoke st ev) evs).
    rewrite Hp', Hu', Hi', Ht', Hp, Hu, Hi, Ht.
    repeat split. intros Hset.
    rewrite Hq' by (rewrite Hi; exact Hset).
    rewrite Hq, (bool_decide_eq_true_2 _ Hset), andb_true_r.
    destruct ev; simpl; rewrite <- ?app_assoc; reflexivity.
Qed.

Lemma render_depends (st st' : session) :
  progress st' = progress st ->
  firmwareURL st' = firmwareURL st ->
  render st' = render st.
Proof. intros Hp Hu. unfold render. rewrite Hp, Hu. reflexivity. Qed.

(** Once unmounted, a session does not move. *)
Lemma step_unmounted (st : session) (ev : event) :
  step invoke (unmount st) ev = unmount st.
Proof. destruct ev as [| [v | e] | [u | e] | file |]; reflexivity. Qed.

Lemma run_unmounted (evs : list event) (st : session) :
  run invoke (unmount st) evs = unmount st.
Proof.
  induction evs as [| ev evs IH]; [reflexivity |].
  change (run invoke (unmount st) (ev :: evs))
    with (run invoke (step invoke (unmount st) ev) evs).
  rewrite step_unmounted. exact IH.
Qed.

(** Until a poll brings a number, the stored progress is absent. *)
Lemma run_no_number (evs : list event) : forall st : session,
  progress st = None ->
  Forall (fun ev => brings_number ev = false) evs ->
  progress (run invoke st evs) = None.
Proof.
  induction evs as [| ev evs IH]; intros st Hst Hall; [exact Hst |].
  apply Forall_cons in Hall as [Hev Hall].
  change (run invoke st (ev :: evs))
    with (run invoke (step invoke st ev) evs).
  apply IH; [| exact Hall].
  destruct ev as [| [[p |] | e] | [u | e] | file |];
    try discriminate; simpl;
    unfold setProgress, setFirmwareURL;
    repeat match goal with
           | |- context [if ?b then _ else _] => destruct b
           | |- context [match interval st with _ => _ end] =>
               destruct (interval st)
           end; simpl; auto.
Qed.

End SessionProperties.

(** C1. Take a session in any state and a stretch of events made of the
    timer elapsing and of polls that fail, with any number of failures in
    it.  After each of its events the stored progress, what is displayed,
    what has been reported to the operator and the timer with its delay
    are what they were before the stretch.  While the timer is set, every
    time it elapsed a poll was issued, and the next time it elapses the
    next poll is issued. *)
Theorem poll_failures_leave_session {R} (invoke : call -> settled R)
    (st : Upgrade.session) (evs : list Upgrade.event) (k : nat) :
  Forall (fun ev => Upgrade.tick_or_failed_poll ev = true) evs ->
  let st' := Upgrade.run invoke st (take k evs) in
  Upgrade.progress st' = Upgrade.progress st
  /\ Upgrade.render st' = Upgrade.render st
  /\ toasts (Upgrade.log st') = toasts (Upgrade.log st)
  /\ Upgrade.interval st' = Upgrade.interval st
  /\ (Upgrade.interval st <> None ->
      Upgrade.polls st'
      = Upgrade.polls st
          ++ replicate (List.length (List.filter Upgrade.is_tick (take k evs)))
               Upgrade.progress_call
      /\ Upgrade.polls (Upgrade.step invoke st' Upgrade.Tick)
         = Upgrade.polls st' ++ [Upgrade.progress_call]).
Proof.
  intros Hall. cbv zeta.
  assert (Hk : Forall (fun ev => Upgrade.tick_or_failed_poll ev = true)
                 (take k evs)) by (apply Forall_take; exact Hall).
  destruct (run_tick_or_failed_poll invoke (take k evs) st Hk)
    as (Hp & Hu & Hi & Ht & Hq).
  split; [exact Hp |].
  split; [apply render_depends; assumption |].
  split; [exact Ht |].
  split; [exact Hi |].
  intros Hset. split.
  - apply Hq; exact Hset.
  - destruct (step_tick_or_failed_poll invoke
                (Upgrade.run invoke st (take k evs)) Upgrade.Tick eq_refl)
      as (_ & _ & _ & _ & Hs).
    rewrite Hs, Hi. simpl.
    rewrite (bool_decide_eq_true_2 _ Hset). reflexivity.
Qed.

Lemma poll_failures_leave_session_witness :
  let failed := Upgrade.ProgressSettled (Rejected (js "device disconnected")) in
  let st' := Upgrade.run (fun _ => Fulfilled tt) Upgrade.mount
               [Upgrade.Tick; failed; Upgrade.Tick; failed; failed] in
  Upgrade.progress st' = None
  /\ Upgrade.render st' = Upgrade.render Upgrade.mount
  /\ toasts (Upgrade.log st') = []
  /\ Upgrade.interval st' = Some 250.
Proof.
  cbv zeta.
  destruct (poll_failures_leave_session (fun _ => Fulfilled tt) Upgrade.mount
              [Upgrade.Tick;
               Upgrade.ProgressSettled (Rejected (js "device disconnected"));
               Upgrade.Tick;
               Upgrade.ProgressSettled (Rejected (js "device disconnected"));
               Upgrade.ProgressSettled (Rejected (js "device disconnected"))]
              5%nat)
    as (Hp & Hr & Ht & Hi & _).
  - repeat constructor.
  - repeat split; assumption.
Defined.

(** The scenario of the specification: 45, two failures, then 100. *)
Example progress_45_fail_fail_100 :
  let shown evs :=
    Upgrade.render
      (Upgrade.run (fun _ => Fulfilled tt) Upgrade.mount evs) in
  let ok n := Upgrade.ProgressSettled (Fulfilled (Some (of_Z n))) in
  let failed := Upgrade.ProgressSettled (Rejected (js "gone")) in
  shown [ok 45] = [Upgrade.progress_indicator (of_Z 45)]
  /\ shown [ok 45; failed] = [Upgrade.progress_indicator (of_Z 45)]
  /\ shown [ok 45; failed; failed] = [Upgrade.progress_indicator (of_Z 45)]
  /\ shown [ok 45; failed; failed; ok 100]
     = [Upgrade.progress_indicator (of_Z 100)].
Proof. repeat split. Qed.

(** C6. Tearing a session down, in whatever state it is, clears the
    timer, and from then on no poll is issued, whatever happens next and
    in whatever order, the timer elapsing right after the teardown
    included: the polls issued stay those issued before it, and nothing
    at all is added to the log. *)
Theorem teardown_stops_polling {R} (invoke : call -> settled R)
    (st : Upgrade.session) (evs : list Upgrade.event) :
  let torn := Upgrade.step invoke st Upgrade.Unmount in
  Upgrade.interval torn = None
  /\ Upgrade.interval (Upgrade.run invoke torn evs) = None
  /\ Upgrade.polls (Upgrade.run invoke torn evs) = Upgrade.polls st
  /\ Upgrade.log (Upgrade.run invoke torn evs) = Upgrade.log st
  /\ Upgrade.polls (Upgrade.run invoke torn (Upgrade.Tick :: evs))
     = Upgrade.polls st.
Proof.
  cbv zeta. simpl Upgrade.step.
  rewrite !run_unmounted. repeat split.
Qed.

(** Before the teardown the timer does issue polls. *)
Example polls_before_and_after_teardown :
  let run := Upgrade.run (fun _ => Fulfilled tt) Upgrade.mount in
  Upgrade.polls (run [Upgrade.Tick; Upgrade.Tick])
  = [Upgrade.progress_call; Upgrade.progress_call]
  /\ Upgrade.polls
       (run [Upgrade.Tick; Upgrade.Tick; Upgrade.Unmount; Upgrade.Tick;
             Upgrade.Tick])
     = [Upgrade.progress_call; Upgrade.progress_call].
Proof. repeat split. Qed.

(** The display before any number and right after one poll result.  As
    long as no poll has brought a number, the display is the download
    link, when a URL is known, followed by the upload control.  When a
    poll brings a number, the display that follows is the progress
    indicator alone, without the upload control, unless the number is
    falsy, as 0 is: then the display stays the idle one. *)
Theorem display_policy {R} (invoke : call -> settled R)
    (evs : list Upgrade.event) (st : Upgrade.session) (p : jsnumber) :
  Forall (fun ev => Upgrade.brings_number ev = false) evs ->
  Upgrade.mounted st = true ->
  let before := Upgrade.run invoke Upgrade.mount evs in
  let after :=
    Upgrade.step invoke st (Upgrade.ProgressSettled (Fulfilled (Some p))) in
  (Upgrade.render before
   = [Upgrade.link_part (Upgrade.firmwareURL before); Upgrade.upload_control]
   /\ shows "FormControl" (Upgrade.render before) = true
   /\ shows "ProgressBar" (Upgrade.render before) = false
   /\ shows "a" (Upgrade.render before)
      = match Upgrade.firmwareURL before with
        | Some (_ :: _) => true
        | _ => false
        end)
  /\ Upgrade.render after
     = (if ToBoolean p then [Upgrade.progress_indicator p]
        else [Upgrade.link_part (Upgrade.firmwareURL st);
              Upgrade.upload_control])
  /\ (ToBoolean p = true ->
      shows "ProgressBar" (Upgrade.render after) = true
      /\ shows "FormControl" (Upgrade.render after) = false
      /\ shows "a" (Upgrade.render after) = false)
  /\ (p = of_Z 0 -> shows "FormControl" (Upgrade.render after) = true).
Proof.
  intros Hall Hm. cbv zeta.
  pose proof (run_no_number invoke evs Upgrade.mount eq_refl Hall) as Hnone.
  assert (Hafter :
    Upgrade.render
      (Upgrade.step invoke st (Upgrade.ProgressSettled (Fulfilled (Some p))))
    = (if ToBoolean p then [Upgrade.progress_indicator p]
       else [Upgrade.link_part (Upgrade.firmwareURL st);
             Upgrade.upload_control])).
  { simpl. unfold Upgrade.setProgress. rewrite Hm.
    unfold Upgrade.render; simpl. destruct (ToBoolean p); reflexivity. }
  split; [| split; [exact Hafter | split]].
  - unfold Upgrade.render. rewrite Hnone. unfold Upgrade.idle_display.
    destruct (Upgrade.firmwareURL (Upgrade.run invoke Upgrade.mount evs))
      as [[| c u] |]; repeat split.
  - intros Hp. rewrite Hafter, Hp. repeat split.
  - intros ->. rewrite Hafter. simpl.
    destruct (Upgrade.firmwareURL st) as [[| c u] |]; reflexivity.
Qed.

Lemma display_policy_witness :
  let st := Upgrade.run (fun _ => Fulfilled tt) Upgrade.mount
              [Upgrade.UrlSettled (Fulfilled (Some (js "https://x/fw")));
               Upgrade.Tick] in
  shows "a" (Upgrade.render st) = true
  /\ shows "FormControl" (Upgrade.render st) = true
  /\ Upgrade.render
       (Upgrade.step (fun _ => Fulfilled tt) st
          (Upgrade.ProgressSettled (Fulfilled (Some (of_Z 45)))))
     = [Upgrade.progress_indicator (of_Z 45)].
Proof.
  cbv zeta.
  destruct (display_policy (fun _ => Fulfilled tt)
              [Upgrade.UrlSettled (Fulfilled (Some (js "https://x/fw")));
               Upgrade.Tick]
              (Upgrade.run (fun _ => Fulfilled tt) Upgrade.mount
                 [Upgrade.UrlSettled (Fulfilled (Some (js "https://x/fw")));
                  Upgrade.Tick])
              (of_Z 45))
    as ((_ & Hf & _ & Ha) & Hr & _).
  - repeat constructor.
  - reflexivity.
  - repeat split; assumption.
Defined.

(* ===================================================================== *)
(** * Further properties of the code *)
(* ===================================================================== *)

(* --------------------------------------------------------------------- *)
(** ** Printing an id and reading it back *)
(* --------------------------------------------------------------------- *)

Section DecimalTexts.
Import Digits.

Lemma js_string_of_uint (d : Decimal.uint) :
  js (DecimalString.NilEmpty.string_of_uint d)
  = map digit_char (digits_of_uint d).
Proof.
  unfold js. induction d; simpl; [reflexivity | ..]; f_equal; exact IHd.
Qed.

Lemma digits_of_uint_small (d : Decimal.uint) :
  Forall (fun k => (k < 10)%N) (digits_of_uint d).
Proof. induction d; simpl; constructor; (lia || assumption). Qed.

Lemma digit_of_digit_char (k : N) :
  (k < 10)%N -> digit_of 10 (digit_char k) = Some k.
Proof.
  intros H. unfold digit_char.
  assert (Hk : k = 0%N \/ k = 1%N \/ k = 2%N \/ k = 3%N \/ k = 4%N
               \/ k = 5%N \/ k = 6%N \/ k = 7%N \/ k = 8%N \/ k = 9%N) by lia.
  repeat (destruct Hk as [-> | Hk]; [reflexivity |]). subst. reflexivity.
Qed.

Lemma digit_char_not_space (k : N) :
  (k < 10)%N -> is_StrWhiteSpaceChar (digit_char k) = false.
Proof.
  intros H. unfold digit_char.
  assert (Hk : k = 0%N \/ k = 1%N \/ k = 2%N \/ k = 3%N \/ k = 4%N
               \/ k = 5%N \/ k = 6%N \/ k = 7%N \/ k = 8%N \/ k = 9%N) by lia.
  repeat (destruct Hk as [-> | Hk]; [reflexivity |]). subst. reflexivity.
Qed.

Lemma span_digits_digit_chars (ds : list N) :
  Forall (fun k => (k < 10)%N) ds ->
  span_digits 10 (map digit_char ds) = (ds, []).
Proof.
  induction 1 as [| k ds Hk _ IH]; [reflexivity |].
  simpl. rewrite (digit_of_digit_char k Hk), IH. reflexivity.
Qed.

Lemma trim_start_keeps (s : jsstring) :
  Forall (fun c => is_StrWhiteSpaceChar c = false) s -> trim_start s = s.
Proof. destruct 1 as [| c s Hc _]; [reflexivity |]. simpl. rewrite Hc. reflexivity. Qed.

Lemma trim_keeps (s : jsstring) :
  Forall (fun c => is_StrWhiteSpaceChar c = false) s -> trim s = s.
Proof.
  intros H. unfold trim. rewrite (trim_start_keeps s H).
  rewrite trim_start_keeps by (apply Forall_rev; exact H).
  apply rev_involutive.
Qed.

Lemma fold_digits_acc (d : Decimal.uint) : forall acc : positive,
  fold_left (fun a k => a * Z.of_N 10 + Z.of_N k) (digits_of_uint d)
            (Z.pos acc)
  = Z.pos (Pos.of_uint_acc d acc).
Proof.
  induction d; intros acc; simpl fold_left; simpl Pos.of_uint_acc;
    [reflexivity | ..];
    rewrite <- IHd; f_equal; lia.
Qed.

Lemma value_of_digits_of_uint (d : Decimal.uint) :
  value_of_digits 10 (digits_of_uint d) = Z.of_N (Pos.of_uint d).
Proof.
  unfold value_of_digits.
  induction d; simpl fold_left; simpl Pos.of_uint;
    [reflexivity | exact IHd | ..];
    match goal with
    | |- fold_left _ _ ?z = _ =>
        change z with (Z.pos (Z.to_pos z))
    end; rewrite fold_digits_acc; reflexivity.
Qed.

(** [Number(String(n))] is the Number of [n]. *)
Lemma Number_of_N (n : N) : Number (of_N n) = of_Z (Z.of_N n).
Proof.
  unfold of_N.
  assert (Hnz : DecimalString.NilZero.string_of_uint (N.to_uint n)
                = DecimalString.NilEmpty.string_of_uint (N.to_uint n)).
  { destruct n as [| p]; [reflexivity |]. simpl N.to_uint.
    pose proof (DecimalPos.Unsigned.to_uint_nonnil p) as Hp.
    destruct (Pos.to_uint p); [contradiction | reflexivity ..]. }
  rewrite Hnz, js_string_of_uint.
  assert (Hval : value_of_digits 10 (digits_of_uint (N.to_uint n)) = Z.of_N n).
  { rewrite value_of_digits_of_uint.
    change (Pos.of_uint (N.to_uint n)) with (N.of_uint (N.to_uint n)).
    rewrite DecimalN.Unsigned.of_to. reflexivity. }
  assert (Hne : digits_of_uint (N.to_uint n) <> []).
  { destruct n as [| p]; [discriminate |]. simpl N.to_uint.
    pose proof (DecimalPos.Unsigned.to_uint_nonnil p) as Hp.
    destruct (Pos.to_uint p); [contradiction | discriminate ..]. }
  pose proof (digits_of_uint_small (N.to_uint n)) as Hsmall.
  revert Hval Hne Hsmall. generalize (digits_of_uint (N.to_uint n)) as ds.
  intros ds Hval Hne Hsmall.
  destruct ds as [| k ds]; [contradiction |].
  assert (Hk : (k < 10)%N) by (inversion Hsmall; assumption).
  unfold Number. rewrite trim_keeps.
  2:{ apply Forall_map. eapply Forall_impl; [exact Hsmall |].
      intros c Hc. apply digit_char_not_space. exact Hc. }
  change (map digit_char (k :: ds)) with (digit_char k :: map digit_char ds).
  cbv beta iota.
  assert (Hhead : (48 <= digit_char k <= 57)%N) by (unfold digit_char; lia).
  assert (Hnd : parse_non_decimal (digit_char k :: map digit_char ds) = None).
  { unfold parse_non_decimal.
    destruct (digit_char k) as [| pk] eqn:Ek; [reflexivity |].
    destruct ds as [| k2 ds2].
    - simpl. repeat (destruct pk as [pk | pk |]; try reflexivity).
    - assert (Hk2 : (k2 < 10)%N)
        by (inversion Hsmall as [| ? ? _ Hr]; inversion Hr; assumption).
      change (map digit_char (k2 :: ds2))
        with (digit_char k2 :: map digit_char ds2).
      assert (Hp : (48 <= digit_char k2 <= 57)%N) by (unfold digit_char; lia).
      assert (Hb : ((digit_char k2 =? 120) || (digit_char k2 =? 88) = false
                    /\ (digit_char k2 =? 111) || (digit_char k2 =? 79) = false
                    /\ (digit_char k2 =? 98) || (digit_char k2 =? 66) = false)%N).
      { unfold digit_char in Hp |- *.
        repeat split; apply orb_false_intro; apply N.eqb_neq; lia. }
      destruct Hb as (Hb1 & Hb2 & Hb3).
      repeat (destruct pk as [pk | pk |]; try reflexivity);
        rewrite Hb1, Hb2, Hb3; reflexivity. }
  rewrite Hnd.
  assert (Hdec : forall t : jsstring,
            t = digit_char k :: map digit_char ds ->
            match t with
            | 43%N :: r => parse_unsigned_decimal false r
            | 45%N :: r => parse_unsigned_decimal true r
            | _ => parse_unsigned_decimal false t
            end = parse_unsigned_decimal false t).
  { intros t ->. unfold digit_char.
    assert (Hkk : k = 0%N \/ k = 1%N \/ k = 2%N \/ k = 3%N \/ k = 4%N
               \/ k = 5%N \/ k = 6%N \/ k = 7%N \/ k = 8%N \/ k = 9%N) by lia.
    repeat (destruct Hkk as [-> | Hkk]; [reflexivity |]). subst. reflexivity. }
  rewrite (Hdec _ eq_refl).
  unfold parse_unsigned_decimal.
  rewrite bool_decide_eq_false_2.
  2:{ intros Heq.
      assert (Hc : digit_char k = 73%N) by (injection Heq as Hc _; exact Hc).
      unfold digit_char in Hc. lia. }
  change (digit_char k :: map digit_char ds) with (map digit_char (k :: ds)).
  rewrite (span_digits_digit_chars (k :: ds) Hsmall).
  simpl negb. unfold parse_exponent. rewrite app_nil_r, Hval.
  simpl List.length. rewrite Z.sub_0_r.
  unfold round_decimal, of_Z.
  destruct (Z.leb_spec (Z.of_N n) 0) as [Hle | Hgt].
  - assert (Z.of_N n = 0) as -> by lia. reflexivity.
  - simpl (0 <=? 0). simpl cond_Zopp. rewrite Z.pow_0_r, Z.mul_1_r.
    reflexivity.
Qed.

End DecimalTexts.

(* --------------------------------------------------------------------- *)
(** ** Integers below 2^53 as Numbers *)
(* --------------------------------------------------------------------- *)

Lemma digits2_pos_iter_xO (p d : positive) :
  digits2_pos (Pos.iter xO p d) = (digits2_pos p + d)%positive.
Proof.
  induction d as [| d IH] using Pos.peano_ind.
  - simpl. lia.
  - rewrite Pos.iter_succ. simpl. rewrite IH. lia.
Qed.

Lemma digits2_pos_lower (p : positive) :
  2 ^ (Z.pos (digits2_pos p) - 1) <= Z.pos p.
Proof.
  induction p as [p IH | p IH |]; simpl digits2_pos.
  - replace (Z.pos (Pos.succ (digits2_pos p)) - 1)
      with (Z.succ (Z.pos (digits2_pos p) - 1)) by lia.
    rewrite Z.pow_succ_r by lia. lia.
  - replace (Z.pos (Pos.succ (digits2_pos p)) - 1)
      with (Z.succ (Z.pos (digits2_pos p) - 1)) by lia.
    rewrite Z.pow_succ_r by lia. lia.
  - simpl. lia.
Qed.

Lemma digits2_pos_safe (p : positive) :
  Z.pos p < 2 ^ 53 -> Z.pos (digits2_pos p) <= 53.
Proof.
  intros H. pose proof (digits2_pos_lower p) as Hl.
  destruct (Z.le_gt_cases (Z.pos (digits2_pos p)) 53) as [Hle | Hgt];
    [exact Hle | exfalso].
  assert (2 ^ 53 <= 2 ^ (Z.pos (digits2_pos p) - 1))
    by (apply Z.pow_le_mono_r; lia).
  lia.
Qed.

Lemma binary_round_aux_canonical (mz : positive) (ez : Z) :
  Z.pos (digits2_pos mz) = 53 ->
  -1074 <= ez <= 971 ->
  binary_round_aux prec emax false (Z.pos mz) ez loc_Exact
  = S754_finite false mz ez.
Proof.
  intros Hd He.
  unfold binary_round_aux, shr_fexp, fexp, emin, prec, emax.
  simpl Zdigits2. rewrite Hd.
  replace (Z.max (53 + ez - 53) (3 - 1024 - 53) - ez) with 0 by lia.
  simpl. rewrite Hd.
  replace (Z.max (53 + ez - 53) (3 - 1024 - 53) - ez) with 0 by lia.
  simpl. destruct (Z.leb_spec ez (1024 - 53)); [reflexivity | lia].
Qed.

(** The Number of a positive integer below 2^53 is finite and not zero:
    the integer itself, with its mantissa brought to 53 bits. *)
Lemma of_Z_safe_integer (p : positive) :
  Z.pos p < 2 ^ 53 ->
  exists m e, of_Z (Z.pos p) = S754_finite false m e.
Proof.
  intros H. pose proof (digits2_pos_safe p H) as Hd.
  unfold of_Z, binary_normalize, binary_round, fexp, emin, prec, emax.
  replace (Z.max (Z.pos (digits2_pos p) + 0 - 53) (3 - 1024 - 53))
    with (Z.pos (digits2_pos p) - 53) by lia.
  unfold shl_align.
  destruct (Z.pos (digits2_pos p) - 53 - 0) as [| q | q] eqn:Eq; try lia.
  - exists p, 0. apply binary_round_aux_canonical; lia.
  - exists (Pos.iter xO p q), (Z.pos (digits2_pos p) - 53).
    apply binary_round_aux_canonical; [| lia].
    rewrite digits2_pos_iter_xO. lia.
Qed.

Lemma or_else_of_Z_safe (n : N) :
  Z.of_N n < 2 ^ 53 -> or_else (of_Z (Z.of_N n)) (of_Z 0) = of_Z (Z.of_N n).
Proof.
  intros H. destruct n as [| p]; [reflexivity |].
  destruct (of_Z_safe_integer p H) as (m & e & Hm).
  simpl Z.of_N. rewrite Hm. reflexivity.
Qed.

(* --------------------------------------------------------------------- *)
(** ** More on [changeId] and [changeName] *)
(* --------------------------------------------------------------------- *)

Lemma trim_start_spaces (s : jsstring) :
  Forall (fun c => is_StrWhiteSpaceChar c = true) s -> trim_start s = [].
Proof.
  induction 1 as [| c s Hc _ IH]; [reflexivity |].
  simpl. rewrite Hc. exact IH.
Qed.

(** X1. An id below 2^53 that the operator types in decimal digits is sent
    as it is, 0 included; in particular, confirming the dialog with the
    text it opens with, [String(currentId)], sends the current id again. *)
Theorem changeId_sends_typed_id {R} (invoke : call -> settled R)
    (serial : N) (name : jsstring) (currentId v : N) :
  Z.of_N v < 2 ^ 53 ->
  Z.of_N currentId < 2 ^ 53 ->
  invocations (effects (Gateway.changeId invoke serial name currentId (of_N v)))
  = [Call "set_id" (IdArg (of_Z (Z.of_N v)))]
  /\ invocations
       (effects (Gateway.changeId invoke serial name currentId
                   (Header.data (Header.changeId_modal serial currentId))))
     = [Call "set_id" (IdArg (of_Z (Z.of_N currentId)))].
Proof.
  intros Hv Hc. split; rewrite changeId_effects; cbv zeta;
    [| simpl Header.data]; rewrite Number_of_N, or_else_of_Z_safe by assumption;
    destruct (invoke _); reflexivity.
Qed.

Lemma changeId_sends_typed_id_witness :
  invocations
    (effects (Gateway.changeId (fun _ => Fulfilled tt) 7 (js "dev") 5
                (of_N 62)))
  = [Call "set_id" (IdArg (of_Z 62))].
Proof.
  apply (changeId_sends_typed_id (fun _ => Fulfilled tt) 7 (js "dev") 5 62);
    vm_compute; reflexivity.
Defined.

(** X2. An input made of spacing only, the empty input included, is read
    as 0 by [Number], and [changeId] sends id 0 for it. *)
Theorem changeId_blank_input_sends_zero {R} (invoke : call -> settled R)
    (serial : N) (name : jsstring) (currentId : N) (answer : jsstring) :
  Forall (fun c => is_StrWhiteSpaceChar c = true) answer ->
  Number answer = of_Z 0
  /\ invocations
       (effects (Gateway.changeId invoke serial name currentId answer))
     = [Call "set_id" (IdArg (of_Z 0))].
Proof.
  intros H.
  assert (HN : Number answer = of_Z 0).
  { unfold Number, trim. rewrite (trim_start_spaces answer H). reflexivity. }
  split; [exact HN |].
  rewrite changeId_effects. cbv zeta. rewrite HN.
  change (or_else (of_Z 0) (of_Z 0)) with (of_Z 0).
  destruct (invoke _); reflexivity.
Qed.

Lemma changeId_blank_input_sends_zero_witness :
  invocations
    (effects (Gateway.changeId (fun _ => Fulfilled tt) 7 (js "dev") 5
                (js "  ")))
  = [Call "set_id" (IdArg (of_Z 0))].
Proof.
  apply (changeId_blank_input_sends_zero (fun _ => Fulfilled tt) 7 (js "dev") 5
           (js "  ")).
  repeat constructor.
Defined.

(** X3. Whatever the dialog resolves with, [changeId] sends exactly one
    [set_id] call and no other call, and the id it carries is neither NaN
    nor the negative zero. *)
Theorem changeId_always_sends_a_number {R} (invoke : call -> settled R)
    (serial : N) (name : jsstring) (currentId : N) (answer : jsstring) :
  exists id : jsnumber,
    invocations
      (effects (Gateway.changeId invoke serial name currentId answer))
    = [Call "set_id" (IdArg id)]
    /\ id <> NaN
    /\ id <> S754_zero true.
Proof.
  exists (or_else (Number answer) (of_Z 0)). split.
  - rewrite changeId_effects. cbv zeta. destruct (invoke _); reflexivity.
  - unfold or_else. destruct (Number answer); simpl; split; discriminate.
Qed.

(** X4. A failed [set_id] or [set_name] call is reported to the operator
    once, with the reason of the failure, and a call that succeeds is
    followed by no report. *)
Theorem identity_call_failure_reported_once {R} (invoke : call -> settled R)
    (serial : N) (name : jsstring) (currentId : N) (answer : jsstring) :
  toasts (effects (Gateway.changeId invoke serial name currentId answer))
  = match invoke (Call "set_id"
                    (IdArg (or_else (Number answer) (of_Z 0)))) with
    | Fulfilled _ => []
    | Rejected e => [e]
    end
  /\ (length answer <= 16 ->
      toasts (effects (Gateway.changeName invoke serial name answer))
      = match invoke (Call "set_name" (NameArg answer)) with
        | Fulfilled _ => []
        | Rejected e => [e]
        end).
Proof.
  split.
  - rewrite changeId_effects. cbv zeta. destruct (invoke _); reflexivity.
  - intros H. rewrite changeName_short by exact H.
    destruct (invoke _); reflexivity.
Qed.

Lemma identity_call_failure_reported_once_witness :
  toasts (effects (Gateway.changeName
                     (fun _ => @Rejected unit (js "device disconnected"))
                     7 (js "old") (js "new")))
  = [js "device disconnected"].
Proof.
  apply (identity_call_failure_reported_once
           (fun _ => @Rejected unit (js "device disconnected"))
           7 (js "old") 5 (js "new")).
  vm_compute. discriminate.
Defined.

(* --------------------------------------------------------------------- *)
(** ** More on the upload *)
(* --------------------------------------------------------------------- *)

(** X5. For a selected file that is read, [uploadFirmware] sends one
    [do_field_upgrade] call whose data are the bytes of the file, in
    order and in full, an empty file included; if the call fails the
    failure is reported once, and nothing else happens. *)
Theorem uploadFirmware_sends_the_bytes {R} (invoke : call -> settled R)
    (file : Upgrade.Blob) :
  Upgrade.blob_readable file = true ->
  effects (Upgrade.uploadFirmware invoke file)
  = Invoked (Call "do_field_upgrade" (DataArg (Upgrade.blob_bytes file)))
      :: match invoke (Call "do_field_upgrade"
                         (DataArg (Upgrade.blob_bytes file))) with
         | Fulfilled _ => []
         | Rejected e => [Toast e]
         end.
Proof.
  intros H. rewrite uploadFirmware_effects. cbv zeta.
  unfold Upgrade.loadend_result. rewrite H. reflexivity.
Qed.

Lemma uploadFirmware_sends_the_bytes_witness :
  effects (Upgrade.uploadFirmware (fun _ => Fulfilled tt)
             {| Upgrade.blob_bytes := [Byte.x47; Byte.x52; Byte.x50];
                Upgrade.blob_readable := true |})
  = [Invoked (Call "do_field_upgrade"
                (DataArg [Byte.x47; Byte.x52; Byte.x50]))].
Proof.
  apply (uploadFirmware_sends_the_bytes (fun _ => Fulfilled tt)
           {| Upgrade.blob_bytes := [Byte.x47; Byte.x52; Byte.x50];
              Upgrade.blob_readable := true |}).
  reflexivity.
Defined.

(* --------------------------------------------------------------------- *)
(** ** More on the session *)
(* --------------------------------------------------------------------- *)

Section SessionRuns.
Import Upgrade Trace.
Context {R : Type} (invoke : call -> settled R).

Lemma unmount_or_not (ev : event) : {ev = Unmount} + {ev <> Unmount}.
Proof. destruct ev; (left; reflexivity) || (right; discriminate). Qed.

Lemma upload_effects_shape (file : Blob) :
  List.filter is_poll (invocations (effects (uploadFirmware invoke file))) = []
  /\ List.filter is_url_call
       (invocations (effects (uploadFirmware invoke file))) = [].
Proof.
  rewrite uploadFirmware_effects. cbv zeta.
  destruct (invoke _); split; reflexivity.
Qed.

Lemma url_calls_record (st : session) (l : list effect) :
  List.filter is_url_call (invocations (log (record st l)))
  = List.filter is_url_call (invocations (log st))
      ++ List.filter is_url_call (invocations l).
Proof.
  unfold record, invocations; simpl. rewrite omap_app. apply List.filter_app.
Qed.

(** Any event but the teardown leaves the timer and the mounted flag. *)
Lemma step_keeps_timer (st : session) (ev : event) :
  ev <> Unmount ->
  mounted (step invoke st ev) = mounted st
  /\ interval (step invoke st ev) = interval st.
Proof.
  intros Hev.
  destruct ev as [| [v | e] | [u | e] | file |]; simpl;
    unfold setProgress, setFirmwareURL.
  - destruct (interval st) eqn:E; simpl; rewrite ?E; split; reflexivity.
  - destruct (mounted st) eqn:E; simpl; rewrite ?E; split; reflexivity.
  - split; reflexivity.
  - destruct (mounted st) eqn:E; simpl; rewrite ?E; split; reflexivity.
  - split; reflexivity.
  - destruct (mounted st && shows "FormControl" (render st));
      split; reflexivity.
  - exfalso; apply Hev; reflexivity.
Qed.

Lemma step_polls (st : session) (ev : event) :
  polls (step invoke st ev)
  = polls st
      ++ (if is_tick ev && bool_decide (interval st <> None)
          then [progress_call] else []).
Proof.
  destruct ev as [| [v | e] | [u | e] | file |]; simpl;
    rewrite ?app_nil_r; unfold setProgress, setFirmwareURL;
    try (destruct (mounted st) eqn:Hm; reflexivity); try reflexivity.
  - destruct (interval st) as [d |] eqn:Hd.
    + rewrite polls_record. reflexivity.
    + rewrite app_nil_r. reflexivity.
  - destruct (mounted st && shows "FormControl" (render st));
      [| reflexivity].
    rewrite polls_record.
    destruct (upload_effects_shape file) as [-> _]. apply app_nil_r.
Qed.

Lemma step_url_calls (st : session) (ev : event) :
  List.filter is_url_call (invocations (log (step invoke st ev)))
  = List.filter is_url_call (invocations (log st)).
Proof.
  destruct ev as [| [v | e] | [u | e] | file |]; simpl;
    unfold setProgress, setFirmwareURL;
    try (destruct (mounted st) eqn:Hm; reflexivity); try reflexivity.
  - destruct (interval st); [| reflexivity].
    rewrite url_calls_record. apply app_nil_r.
  - destruct (mounted st && shows "FormControl" (render st));
      [| reflexivity].
    rewrite url_calls_record.
    destruct (upload_effects_shape file) as [_ ->]. apply app_nil_r.
Qed.

Lemma step_toasts (st : session) (ev : event) :
  is_file ev = false ->
  toasts (log (step invoke st ev)) = toasts (log st).
Proof.
  destruct ev as [| [v | e] | [u | e] | file |]; try discriminate;
    intros _; simpl; unfold setProgress, setFirmwareURL;
    try (destruct (mounted st) eqn:Hm; reflexivity); try reflexivity.
  destruct (interval st); [| reflexivity].
  apply toasts_record_invoked.
Qed.

Lemma step_progress (st : session) (ev : event) :
  mounted st = true ->
  progress (step invoke st ev)
  = match ev with
    | ProgressSettled (Fulfilled v) => v
    | _ => progress st
    end.
Proof.
  intros Hm.
  destruct ev as [| [v | e] | [u | e] | file |]; simpl;
    unfold setProgress, setFirmwareURL; rewrite ?Hm; try reflexivity.
  - destruct (interval st); reflexivity.
  - destruct (shows _ _); reflexivity.
Qed.

Lemma run_cons (st : session) (ev : event) (evs : list event) :
  run invoke st (ev :: evs) = run invoke (step invoke st ev) evs.
Proof. reflexivity. Qed.

Lemma run_polls (evs : list event) : forall st : session,
  mounted st = true ->
  interval st <> None ->
  polls (run invoke st evs)
  = polls st ++ replicate (ticks_while_mounted evs) progress_call.
Proof.
  induction evs as [| ev evs IH]; intros st Hm Hi.
  - simpl. rewrite app_nil_r. reflexivity.
  - rewrite run_cons.
    destruct (unmount_or_not ev) as [-> | Hne].
    + simpl step. rewrite run_unmounted. simpl. rewrite app_nil_r.
      reflexivity.
    + destruct (step_keeps_timer st ev Hne) as [Hm' Hi'].
      rewrite IH by (rewrite ?Hm', ?Hi'; assumption).
      rewrite step_polls, (bool_decide_eq_true_2 _ Hi), andb_true_r.
      destruct ev; simpl; rewrite <- ?app_assoc, ?app_nil_r;
        try reflexivity.
      exfalso; apply Hne; reflexivity.
Qed.

Lemma run_progress (evs : list event) : forall st : session,
  mounted st = true ->
  progress (run invoke st evs) = last_fulfilled (progress st) evs.
Proof.
  induction evs as [| ev evs IH]; intros st Hm; [reflexivity |].
  rewrite run_cons.
  destruct (unmount_or_not ev) as [-> | Hne].
  - simpl step. rewrite run_unmounted. reflexivity.
  - destruct (step_keeps_timer st ev Hne) as [Hm' _].
    rewrite IH by (rewrite Hm'; exact Hm).
    rewrite (step_progress st ev Hm).
    destruct ev as [| [v | e] | [u | e] | file |]; try reflexivity.
    exfalso; apply Hne; reflexivity.
Qed.

Lemma run_url_calls (evs : list event) : forall st : session,
  List.filter is_url_call (invocations (log (run invoke st evs)))
  = List.filter is_url_call (invocations (log st)).
Proof.
  induction evs as [| ev evs IH]; intros st; [reflexivity |].
  rewrite run_cons, IH. apply step_url_calls.
Qed.

Lemma run_toasts (evs : list event) : forall st : session,
  Forall (fun ev => is_file ev = false) evs ->
  toasts (log (run invoke st evs)) = toasts (log st).
Proof.
  induction evs as [| ev evs IH]; intros st Hall; [reflexivity |].
  apply Forall_cons in Hall as [Hev Hall].
  rewrite run_cons, IH by exact Hall. apply step_toasts. exact Hev.
Qed.

Lemma run_timer_invariant (evs : list event) : forall st : session,
  (mounted st = true /\ interval st = Some 250)
  \/ (mounted st = false /\ interval st = None) ->
  (mounted (run invoke st evs) = true
   /\ interval (run invoke st evs) = Some 250)
  \/ (mounted (run invoke st evs) = false
      /\ interval (run invoke st evs) = None).
Proof.
  induction evs as [| ev evs IH]; intros st Hinv; [exact Hinv |].
  rewrite run_cons. apply IH.
  destruct (unmount_or_not ev) as [-> | Hne].
  - right. split; reflexivity.
  - destruct (step_keeps_timer st ev Hne) as [-> ->]. exact Hinv.
Qed.

End SessionRuns.

(** X6. In every run of a session from its mount, the poll timer is set,
    with its delay of 250 ms, exactly while the component is mounted: a
    mounted session always has its timer, and a session that was torn
    down never has one. *)
Theorem timer_lives_with_session {R} (invoke : call -> settled R)
    (evs : list Upgrade.event) :
  let st := Upgrade.run invoke Upgrade.mount evs in
  (Upgrade.mounted st = true /\ Upgrade.interval st = Some 250)
  \/ (Upgrade.mounted st = false /\ Upgrade.interval st = None).
Proof.
  cbv zeta. apply run_timer_invariant. left. split; reflexivity.
Qed.

(** X7. In every run of a session from its mount, whatever else happens
    in it, the polls that were issued are one [progress] call for each
    time the timer elapsed before the teardown, and no other. *)
Theorem one_poll_per_tick {R} (invoke : call -> settled R)
    (evs : list Upgrade.event) :
  Upgrade.polls (Upgrade.run invoke Upgrade.mount evs)
  = replicate (Trace.ticks_while_mounted evs) Upgrade.progress_call.
Proof.
  rewrite run_polls by (reflexivity || discriminate). reflexivity.
Qed.

(** X8. In every run of a session from its mount, the firmware URL is
    asked for exactly once; and as long as no file is selected nothing is
    ever reported to the operator, whatever the polls and the URL request
    come to. *)
Theorem url_asked_once_and_silent {R} (invoke : call -> settled R)
    (evs : list Upgrade.event) :
  List.filter Trace.is_url_call
    (invocations (Upgrade.log (Upgrade.run invoke Upgrade.mount evs)))
  = [Upgrade.firmware_url_call]
  /\ (Forall (fun ev => Trace.is_file ev = false) evs ->
      toasts (Upgrade.log (Upgrade.run invoke Upgrade.mount evs)) = []).
Proof.
  split.
  - rewrite run_url_calls. reflexivity.
  - intros H. rewrite run_toasts by exact H. reflexivity.
Qed.

Lemma url_asked_once_and_silent_witness :
  toasts
    (Upgrade.log
       (Upgrade.run (fun _ => @Rejected unit (js "no"))  Upgrade.mount
          [Upgrade.Tick;
           Upgrade.UrlSettled (Rejected (js "unreachable"));
           Upgrade.ProgressSettled (Rejected (js "unreachable"))]))
  = [].
Proof.
  apply (url_asked_once_and_silent (fun _ => @Rejected unit (js "no"))
           [Upgrade.Tick;
            Upgrade.UrlSettled (Rejected (js "unreachable"));
            Upgrade.ProgressSettled (Rejected (js "unreachable"))]).
  repeat constructor.
Defined.

(** X9. In every run of a session from its mount, the stored progress is
    the value of the poll that was fulfilled last before the teardown,
    and it is absent when none was fulfilled; a later value replaces an
    earlier one also when it is smaller, 0 or absent, and the display
    follows the value that is stored. *)
Theorem progress_is_last_fulfilled {R} (invoke : call -> settled R)
    (evs : list Upgrade.event) :
  let st := Upgrade.run invoke Upgrade.mount evs in
  Upgrade.progress st = Trace.last_fulfilled None evs
  /\ Upgrade.render st
     = match Trace.last_fulfilled None evs with
       | Some p =>
           if ToBoolean p then [Upgrade.progress_indicator p]
           else Upgrade.idle_display (Upgrade.firmwareURL st)
       | None => Upgrade.idle_display (Upgrade.firmwareURL st)
       end.
Proof.
  cbv zeta.
  assert (H : Upgrade.progress (Upgrade.run invoke Upgrade.mount evs)
              = Trace.last_fulfilled None evs)
    by (rewrite run_progress; reflexivity).
  split; [exact H |]. unfold Upgrade.render. rewrite H. reflexivity.
Qed.

(** The progress shown can go back, and back to the upload control. *)
Example progress_is_not_sticky :
  let shown evs :=
    Upgrade.render
      (Upgrade.run (fun _ => Fulfilled tt) Upgrade.mount evs) in
  let ok v := Upgrade.ProgressSettled (Fulfilled v) in
  shown [ok (Some (of_Z 45)); ok (Some (of_Z 20))]
  = [Upgrade.progress_indicator (of_Z 20)]
  /\ shown [ok (Some (of_Z 45)); ok (Some (of_Z 0))]
     = Upgrade.idle_display None
  /\ shown [ok (Some (of_Z 45)); ok None] = Upgrade.idle_display None.
Proof. repeat split. Qed.

(** X10. Selecting a file changes nothing of the polling: the stored
    progress, the firmware URL, the timer, the polls issued and the
    display are what they were.  In a mounted session that shows the
    upload control, it adds to the log what [uploadFirmware] does for the
    file, and nothing else. *)
Theorem upload_leaves_polling {R} (invoke : call -> settled R)
    (st : Upgrade.session) (file : Upgrade.Blob) :
  let st' := Upgrade.step invoke st (Upgrade.FileSelected file) in
  Upgrade.progress st' = Upgrade.progress st
  /\ Upgrade.firmwareURL st' = Upgrade.firmwareURL st
  /\ Upgrade.interval st' = Upgrade.interval st
  /\ Upgrade.mounted st' = Upgrade.mounted st
  /\ Upgrade.polls st' = Upgrade.polls st
  /\ Upgrade.render st' = Upgrade.render st
  /\ (Upgrade.mounted st = true ->
      shows "FormControl" (Upgrade.render st) = true ->
      Upgrade.log st'
      = Upgrade.log st ++ effects (Upgrade.uploadFirmware invoke file)).
Proof.
  cbv zeta.
  assert (Hne : Upgrade.FileSelected file <> Upgrade.Unmount) by discriminate.
  destruct (step_keeps_timer invoke st _ Hne) as [Hm Hi].
  assert (Hp : Upgrade.progress
                 (Upgrade.step invoke st (Upgrade.FileSelected file))
               = Upgrade.progress st
               /\ Upgrade.firmwareURL
                    (Upgrade.step invoke st (Upgrade.FileSelected file))
                  = Upgrade.firmwareURL st).
  { simpl. destruct (_ && _); split; reflexivity. }
  destruct Hp as [Hp Hu].
  repeat split; try assumption.
  - rewrite step_polls. apply app_nil_r.
  - apply render_depends; assumption.
  - intros Hmt Hs. simpl. rewrite Hmt, Hs. reflexivity.
Qed.

Lemma upload_leaves_polling_witness :
  Upgrade.log
    (Upgrade.step (fun _ => Fulfilled tt) Upgrade.mount
       (Upgrade.FileSelected
          {| Upgrade.blob_bytes := [Byte.x47];
             Upgrade.blob_readable := true |}))
  = [Invoked Upgrade.firmware_url_call;
     Invoked (Call "do_field_upgrade" (DataArg [Byte.x47]))].
Proof.
  apply (upload_leaves_polling (fun _ => Fulfilled tt) Upgrade.mount
           {| Upgrade.blob_bytes := [Byte.x47];
              Upgrade.blob_readable := true |});
    reflexivity.
Defined.

(* --------------------------------------------------------------------- *)
(** ** More on the dispatch and on the heading *)
(* --------------------------------------------------------------------- *)

(** X11. A class name that is neither a key of [FACTORIES] nor a property
    name of [Object.prototype] is dispatched, without anything thrown, to
    the diagnostic element, whose text is made of the type tag as JSON
    and of the class name as it came, after the heading and the line
    under it. *)
Theorem dispatch_fallback_for_unknown_class (info : DeviceInfo)
    (device_class : jsstring) :
  Dispatch.FACTORIES !! device_class = None ->
  Dispatch.ObjectPrototype !! device_class = None ->
  Dispatch.DeviceComponent info device_class
  = Dispatch.Normal
      [ Dispatch.heading info; Dispatch.details info;
        El "Bug"
          [AStr "specifics"
             (js "Unknown Device Type: "
                ++ Json.stringify (device_type info)
                ++ js " (" ++ device_class ++ js ")")] [] ].
Proof. intros HF HP. apply dispatch_unknown_name; assumption. Qed.

Lemma dispatch_fallback_for_unknown_class_witness :
  let info := {| device_type := Grapple (js "SpiderLan");
                 device_id := Some 9%N; name := None; serial := None;
                 firmware_version := None; is_dfu := false |} in
  Dispatch.DeviceComponent info (js "SpiderLAN")
  = Dispatch.Normal
      [ Dispatch.heading info; Dispatch.details info;
        El "Bug"
          [AStr "specifics"
             (js "Unknown Device Type: {" ++ dquote ++ js "Grapple" ++ dquote
                ++ js ":" ++ dquote ++ js "SpiderLan" ++ dquote
                ++ js "} (SpiderLAN)")] [] ].
Proof.
  cbv zeta.
  apply (dispatch_fallback_for_unknown_class
           {| device_type := Grapple (js "SpiderLan");
              device_id := Some 9%N; name := None; serial := None;
              firmware_version := None; is_dfu := false |}
           (js "SpiderLAN")); reflexivity.
Defined.

(** X12. A class name that is a key of [FACTORIES] is one of the five
    names written in it, letter for letter, and it is dispatched to the
    element of its handler, which is given the descriptor unchanged and
    [invoke]; nothing is thrown. *)
Theorem dispatch_registered_class (info : DeviceInfo)
    (device_class : jsstring) (f : Dispatch.FactoryFunc) :
  Dispatch.FACTORIES !! device_class = Some f ->
  In device_class
     [js "OldVersionDevice"; js "GrappleFirmwareUpgrade"; js "LaserCAN";
      js "MitoCANdria"; js "FlexiCAN"]
  /\ Dispatch.DeviceComponent info device_class
     = Dispatch.Normal [Dispatch.heading info; Dispatch.details info; f info]
  /\ exists tag, f info = El tag [AInfo info; AInvoke] [].
Proof.
  intros H. split; [exact (registered_names _ _ H) |]. split.
  - unfold Dispatch.DeviceComponent, Dispatch.getFactory. rewrite H.
    reflexivity.
  - apply elem_of_list_to_map_2 in H.
    repeat (apply elem_of_cons in H; destruct H as [H | H];
            [inversion H; subst; eexists; reflexivity |]).
    inversion H.
Qed.

Lemma dispatch_registered_class_witness :
  let info := {| device_type := Grapple (js "LaserCAN");
                 device_id := Some 5%N; name := None; serial := None;
                 firmware_version := None; is_dfu := false |} in
  Dispatch.DeviceComponent info (js "LaserCAN")
  = Dispatch.Normal
      [ El "h3" [] [Text (js "LaserCAN"); Text (js "#5"); Skipped];
        Skipped;
        El "LaserCanComponent" [AInfo info; AInvoke] [] ].
Proof.
  cbv zeta.
  apply (dispatch_registered_class
           {| device_type := Grapple (js "LaserCAN");
              device_id := Some 5%N; name := None; serial := None;
              firmware_version := None; is_dfu := false |}
           (js "LaserCAN")
           (fun info => El "LaserCanComponent" [AInfo info; AInvoke] [])).
  reflexivity.
Defined.


(** X14. The line under the heading is left out exactly when the
    descriptor has neither a serial nor a firmware version.  When there
    is a serial and no firmware version, it still ends with a version
    text, under the label [Firmware:], in bootloader mode too. *)
Theorem details_without_version (info : DeviceInfo) :
  (Dispatch.details info = Skipped
   <-> serial info = None /\ firmware_version info = None)
  /\ (forall n, serial info = Some n -> firmware_version info = None ->
      exists rest,
        Dispatch.details info
        = El "p" [AStr "className" (js "text-muted")]
            [ Text (js "Serial: 0x" ++ toString16 n);
              Text (js "Firmware: " ++ rest) ]).
Proof.
  unfold Dispatch.details, Dispatch.serial_part, Dispatch.version_part.
  split.
  - destruct (serial info), (firmware_version info); simpl; split;
      try discriminate; try (intros [? ?]; discriminate); auto.
  - intros n Hs Hv. rewrite Hs, Hv. simpl. eexists. reflexivity.
Qed.

(** X15. For a descriptor without the bootloader flag, the heading is
    made of the label of the device type, the bus id after a [#] when
    there is one and the name in parentheses when there is one, without
    the FIRMWARE UPDATE marker, and a firmware version that is present is
    shown after the label [Firmware:]. *)
Theorem normal_heading (info : DeviceInfo) :
  is_dfu info = false ->
  Dispatch.heading info
  = El "h3" []
      [ Text (Dispatch.renderDeviceType (device_type info));
        match device_id info with
        | Some n => Text (js "#" ++ of_N n)
        | None => Skipped
        end;
        match name info with
        | Some s => Text (js "(" ++ s ++ js ")")
        | None => Skipped
        end ]
  /\ occurs "span" (Dispatch.heading info) = false
  /\ (forall v, firmware_version info = Some v ->
        Dispatch.details info
        = El "p" [AStr "className" (js "text-muted")]
            [ Dispatch.serial_part info; Text (js "Firmware: " ++ v) ]).
Proof.
  intros Hdfu. unfold Dispatch.heading. rewrite Hdfu. repeat split.
  - unfold Dispatch.id_part, Dispatch.name_part.
    destruct (device_id info), (name info); reflexivity.
  - intros v Hv. unfold Dispatch.details, Dispatch.version_part.
    rewrite Hv, Hdfu, andb_false_r, orb_true_r. reflexivity.
Qed.

Lemma normal_heading_witness :
  let info := {| device_type := Grapple (js "LaserCAN");
                 device_id := Some 5%N;
                 name := Some (js "front");
                 serial := None;
                 firmware_version := Some (js "0.4.0");
                 is_dfu := false |} in
  Dispatch.heading info
  = El "h3" [] [Text (js "LaserCAN"); Text (js "#5"); Text (js "(front)")]
  /\ Dispatch.details info
     = El "p" [AStr "className" (js "text-muted")]
         [Skipped; Text (js "Firmware: 0.4.0")].
Proof.
  cbv zeta. split.
  - apply (normal_heading
             {| device_type := Grapple (js "LaserCAN");
                device_id := Some 5%N;
                name := Some (js "front");
                serial := None;
                firmware_version := Some (js "0.4.0");
                is_dfu := false |}).
    reflexivity.
  - apply (normal_heading
             {| device_type := Grapple (js "LaserCAN");
                device_id := Some 5%N;
                name := Some (js "front");
                serial := None;
                firmware_version := Some (js "0.4.0");
                is_dfu := false |}
             eq_refl).
    reflexivity.
Defined.

(* --------------------------------------------------------------------- *)
(** ** The buttons of the header *)
(* --------------------------------------------------------------------- *)

(** X16. The header offers the Firmware Upgrade button exactly when it
    was given a [start_dfu], orange when an update is known and purple
    otherwise.  So no button that is rendered fails when it is clicked:
    [startFieldUpgrade] never reaches a missing [start_dfu]; it runs the
    [start_dfu] it was given when the operator confirms, and does nothing
    at all when the operator declines. *)
Theorem header_buttons_never_fail {R} (invoke : call -> settled R)
    (serial : N) (name : jsstring) (device_id : N)
    (start_dfu : option (M unit))
    (update_details : option Header.LightReleaseResponse)
    (op : Header.operator) :
  let v := Header.GrappleDeviceHeaderComponent
             (match start_dfu with Some _ => true | None => false end)
             update_details in
  let buttons := Header.left_col v ++ Header.right_col v in
  (forall b, In b buttons ->
     exists m, Header.click invoke serial name device_id start_dfu op
                 (Header.onClick b)
               = Dispatch.Normal m)
  /\ (start_dfu = None ->
      forall b, In b buttons -> Header.onClick b <> Header.OnStartFieldUpgrade)
  /\ (start_dfu <> None ->
      In {| Header.variant := match update_details with
                              | Some _ => js "orange"
                              | None => js "purple"
                              end;
            Header.onClick := Header.OnStartFieldUpgrade;
            Header.caption := js "Firmware Upgrade" |} buttons)
  /\ (Header.confirms_upgrade op = false ->
      Header.click invoke serial name device_id start_dfu op
        Header.OnStartFieldUpgrade
      = Dispatch.Normal (ret tt))
  /\ (forall run_dfu, start_dfu = Some run_dfu ->
      Header.confirms_upgrade op = true ->
      Header.click invoke serial name device_id start_dfu op
        Header.OnStartFieldUpgrade
      = Dispatch.Normal run_dfu).
Proof.
  cbv zeta. repeat split.
  - intros b Hb. destruct start_dfu as [run_dfu |]; simpl in Hb;
      repeat (destruct Hb as [<- | Hb]; [simpl; eauto |]);
      try contradiction.
    unfold Header.startFieldUpgrade.
    destruct (Header.confirms_upgrade op); eauto.
  - intros -> b Hb. simpl in Hb.
    repeat (destruct Hb as [<- | Hb]; [discriminate |]). contradiction.
  - intros Hs. destruct start_dfu as [run_dfu |]; [| contradiction].
    simpl. tauto.
  - intros Hc. simpl. unfold Header.startFieldUpgrade. rewrite Hc.
    reflexivity.
  - intros run_dfu -> Hc. simpl. unfold Header.startFieldUpgrade.
    rewrite Hc. reflexivity.
Qed.

(* --------------------------------------------------------------------- *)
(** ** The display over a whole run *)
(* --------------------------------------------------------------------- *)

(** C8, as the specification states it, fails: the display does not stay
    on the progress indicator once a number has been observed.  After a
    poll has brought 45, a later poll that brings [null], or 0, puts the
    upload control back and takes the progress indicator away. *)
Lemma display_not_sticky_after_progress :
  let shown evs :=
    Upgrade.render
      (Upgrade.run (fun _ => Fulfilled tt) Upgrade.mount evs) in
  let ok v := Upgrade.ProgressSettled (Fulfilled v) in
  (shows "ProgressBar" (shown [ok (Some (of_Z 45))]) = true
   /\ shows "FormControl" (shown [ok (Some (of_Z 45))]) = false)
  /\ (shows "FormControl" (shown [ok (Some (of_Z 45)); ok None]) = true
      /\ shows "ProgressBar" (shown [ok (Some (of_Z 45)); ok None]) = false)
  /\ (shows "FormControl"
        (shown [ok (Some (of_Z 45)); ok (Some (of_Z 0))]) = true
      /\ shows "ProgressBar"
           (shown [ok (Some (of_Z 45)); ok (Some (of_Z 0))]) = false).
Proof. repeat split. Qed.

(** C8, amended.  In every run of a session from its mount the display
    follows the poll result that was stored last.  As long as no poll has
    brought a number, it is the download link, when a URL is known,
    followed by the upload control.  While the value stored last is a
    truthy number, it is the progress indicator alone: no upload control
    and no link.  When the value stored last is 0, or absent, it is again
    the link, when a URL is known, and the upload control, also after
    numeric progress has been observed before. *)
Theorem display_follows_stored_progress {R} (invoke : call -> settled R)
    (evs : list Upgrade.event) :
  let st := Upgrade.run invoke Upgrade.mount evs in
  let idle := [Upgrade.link_part (Upgrade.firmwareURL st);
               Upgrade.upload_control] in
  (Forall (fun ev => Upgrade.brings_number ev = false) evs ->
   Upgrade.render st = idle)
  /\ Upgrade.render st
     = match Trace.last_fulfilled None evs with
       | Some p => if ToBoolean p then [Upgrade.progress_indicator p] else idle
       | None => idle
       end
  /\ (forall p, Trace.last_fulfilled None evs = Some p ->
      ToBoolean p = true ->
      shows "ProgressBar" (Upgrade.render st) = true
      /\ shows "FormControl" (Upgrade.render st) = false
      /\ shows "a" (Upgrade.render st) = false)
  /\ (Trace.last_fulfilled None evs = None
      \/ Trace.last_fulfilled None evs = Some (of_Z 0) ->
      shows "FormControl" (Upgrade.render st) = true
      /\ shows "ProgressBar" (Upgrade.render st) = false
      /\ shows "a" (Upgrade.render st)
         = match Upgrade.firmwareURL st with
           | Some (_ :: _) => true
           | _ => false
           end).
Proof.
  cbv zeta.
  assert (Hp : Upgrade.progress (Upgrade.run invoke Upgrade.mount evs)
               = Trace.last_fulfilled None evs)
    by (rewrite run_progress; reflexivity).
  assert (Hr : Upgrade.render (Upgrade.run invoke Upgrade.mount evs)
               = match Trace.last_fulfilled None evs with
                 | Some p =>
                     if ToBoolean p then [Upgrade.progress_indicator p]
                     else [Upgrade.link_part
                             (Upgrade.firmwareURL
                                (Upgrade.run invoke Upgrade.mount evs));
                           Upgrade.upload_control]
                 | None =>
                     [Upgrade.link_part
                        (Upgrade.firmwareURL
                           (Upgrade.run invoke Upgrade.mount evs));
                      Upgrade.upload_control]
                 end).
  { unfold Upgrade.render. rewrite Hp. reflexivity. }
  split; [| split; [exact Hr | split]].
  - intros Hall.
    pose proof (run_no_number invoke evs Upgrade.mount eq_refl Hall) as Hnone.
    unfold Upgrade.render. rewrite Hnone. reflexivity.
  - intros p Hl Ht. rewrite Hr, Hl, Ht. repeat split.
  - intros Hl. rewrite Hr.
    assert (Hidle :
      match Trace.last_fulfilled None evs with
      | Some p =>
          if ToBoolean p then [Upgrade.progress_indicator p]
          else [Upgrade.link_part
                  (Upgrade.firmwareURL (Upgrade.run invoke Upgrade.mount evs));
                Upgrade.upload_control]
      | None =>
          [Upgrade.link_part
             (Upgrade.firmwareURL (Upgrade.run invoke Upgrade.mount evs));
           Upgrade.upload_control]
      end
      = [Upgrade.link_part
           (Upgrade.firmwareURL (Upgrade.run invoke Upgrade.mount evs));
         Upgrade.upload_control])
      by (destruct Hl as [-> | ->]; reflexivity).
    rewrite Hidle.
    destruct (Upgrade.firmwareURL (Upgrade.run invoke Upgrade.mount evs))
      as [[| c u] |]; repeat split.
Qed.

Lemma display_follows_stored_progress_witness :
  let ok v := Upgrade.ProgressSettled (Fulfilled v) in
  let evs := [Upgrade.UrlSettled (Fulfilled (Some (js "https://x/fw")));
              Upgrade.Tick; ok (Some (of_Z 45)); Upgrade.Tick; ok None] in
  Upgrade.render (Upgrade.run (fun _ => Fulfilled tt) Upgrade.mount
                    (firstn 2 evs))
  = [Upgrade.link_part (Some (js "https://x/fw")); Upgrade.upload_control]
  /\ shows "FormControl"
       (Upgrade.render (Upgrade.run (fun _ => Fulfilled tt) Upgrade.mount
                          (firstn 3 evs))) = false
  /\ shows "FormControl"
       (Upgrade.render (Upgrade.run (fun _ => Fulfilled tt) Upgrade.mount evs))
     = true.
Proof.
  cbv zeta. split; [| split].
  - destruct (display_follows_stored_progress (fun _ => Fulfilled tt)
                [Upgrade.UrlSettled (Fulfilled (Some (js "https://x/fw")));
                 Upgrade.Tick]) as (H & _).
    apply H. repeat constructor.
  - destruct (display_follows_stored_progress (fun _ => Fulfilled tt)
                [Upgrade.UrlSettled (Fulfilled (Some (js "https://x/fw")));
                 Upgrade.Tick;
                 Upgrade.ProgressSettled (Fulfilled (Some (of_Z 45)))])
      as (_ & _ & H & _).
    apply (H (of_Z 45)); reflexivity.
  - destruct (display_follows_stored_progress (fun _ => Fulfilled tt)
                [Upgrade.UrlSettled (Fulfilled (Some (js "https://x/fw")));
                 Upgrade.Tick;
                 Upgrade.ProgressSettled (Fulfilled (Some (of_Z 45)));
                 Upgrade.Tick;
                 Upgrade.ProgressSettled (Fulfilled None)])
      as (_ & _ & _ & H).
    apply H. left. reflexivity.
Defined.
